(** * DS.ManyArray: the has-many relationship array and its link protocol

    Shallow embedding of
    [packages/ember-data/lib/system/record_arrays/many_array.js].

    A record is identified with its client id (a [nat]); the store's
    [findByClientId] and the record's [get('clientId')] are the two
    directions of that identification.  JavaScript exceptions are modelled
    by an outcome that carries the state reached when the exception left
    the method, so that "nothing was changed" is a statement about that
    state. *)

From stdpp Require Import base option list gmap strings.

Set Default Proof Using "Type".

(** ** Values, links, the array object and the heap *)

(** A JavaScript value as far as the relationship code distinguishes them:
    [undefined], [null], or a reference to a record. *)
Inductive Value :=
  | VUndefined
  | VNull
  | VRef (record : nat).

#[global] Instance Value_eq_dec : EqDecision Value.
Proof. solve_decision. Defined.

(** The strict comparison [a !== b] of the source. *)
Definition strictNe (a b : Value) : bool := bool_decide (a ≠ b).
Definition strictEq (a b : Value) : bool := bool_decide (a = b).

(** The fields of a [DS.OneToManyLink] that the array writes. *)
Record Link := mkLink {
  oldParent : Value;
  newParent : Value;
  hasManyName : option string
}.

#[global] Instance Link_eq_dec : EqDecision Link.
Proof. solve_decision. Defined.

(** A link object is referred to by the pair (child, parent) it is
    memoized under. *)
Abbreviation LinkRef := (nat * nat)%type (only parsing).

(** The properties of [this] that the file reads or writes.  [owner] is
    the record the association belongs to, set when the array is created;
    [type] may be unset.  [_linksToSync] is [None] while the property is
    still [undefined]; otherwise it holds the insertion-ordered list of an
    [Ember.OrderedSet]. *)
Record ManyArray := mkManyArray {
  owner : nat;
  name : string;
  type : option nat;
  content : list nat;
  _initted : bool;
  _linksToSync : option (list LinkRef)
}.

(** What lives outside the array: the memoized links and the properties of
    the records ([props !! (record, key)] is [get(record, key)]). *)
Record Heap := mkHeap {
  links : gmap LinkRef Link;
  props : gmap (nat * string) Value
}.

(** Calls that leave this file, in the order they happen. *)
Inductive Event :=
  | EvSync (link : LinkRef) (seenArray : ManyArray) (seenHeap : Heap)
  | EvSet (record : nat) (key : string) (v : Value)
  | EvSuperWillChange (index removed added : nat)
  | EvSuperDidChange (index removed added : nat).

Record State := mkState {
  this : ManyArray;
  heap : Heap;
  trace : list Event
}.

Inductive Error :=
  | AssertionFailed
  | TypeError.

(** ** The state-and-exception monad *)

Inductive Outcome (A : Type) :=
  | Return (a : A) (s : State)
  | Throw (e : Error) (s : State).
Arguments Return {A} a s.
Arguments Throw {A} e s.

Definition M (A : Type) : Type := State -> Outcome A.

Definition ret {A} (a : A) : M A := fun s => Return a s.
Definition throw {A} (e : Error) : M A := fun s => Throw e s.
Definition bind {A B} (m : M A) (k : A -> M B) : M B :=
  fun s => match m s with
           | Return a s' => k a s'
           | Throw e s' => Throw e s'
           end.

Notation "x <- m ;; k" := (bind m (fun x => k))
  (at level 20, m at level 99, k at level 200, only parsing).
Notation "m ;; k" := (bind m (fun _ => k))
  (at level 100, k at level 200, right associativity, only parsing).

Definition gets {A} (f : State -> A) : M A := fun s => Return (f s) s.
Definition modify (f : State -> State) : M unit := fun s => Return tt (f s).

(** [for (...) { body }] over the values the loop variable takes, and
    [Array.prototype.map] with a callback that may throw. *)
Fixpoint forEach {A} (l : list A) (body : A -> M unit) : M unit :=
  match l with
  | [] => ret tt
  | x :: l' => body x ;; forEach l' body
  end.

Fixpoint mapM {A B} (f : A -> M B) (l : list A) : M (list B) :=
  match l with
  | [] => ret []
  | x :: l' => y <- f x ;; ys <- mapM f l' ;; ret (y :: ys)
  end.

(** ** Field updates *)

Definition setContent (c : list nat) (a : ManyArray) : ManyArray :=
  mkManyArray (owner a) (name a) (type a) c (_initted a) (_linksToSync a).
Definition setInitted (b : bool) (a : ManyArray) : ManyArray :=
  mkManyArray (owner a) (name a) (type a) (content a) b (_linksToSync a).
Definition setLinksToSync (p : option (list LinkRef)) (a : ManyArray) : ManyArray :=
  mkManyArray (owner a) (name a) (type a) (content a) (_initted a) p.

Definition withThis (f : ManyArray -> ManyArray) (s : State) : State :=
  mkState (f (this s)) (heap s) (trace s).
Definition withLinks (f : gmap LinkRef Link -> gmap LinkRef Link) (s : State) : State :=
  mkState (this s) (mkHeap (f (links (heap s))) (props (heap s))) (trace s).
Definition withProps (f : gmap (nat * string) Value -> gmap (nat * string) Value)
    (s : State) : State :=
  mkState (this s) (mkHeap (links (heap s)) (f (props (heap s)))) (trace s).
Definition emit (e : Event) (s : State) : State :=
  mkState (this s) (heap s) (trace s ++ [e]).

(** ** Collaborators *)

(** [Ember.OrderedSet]: [add] ignores an object that is already present and
    otherwise appends it; [forEach] walks a copy of the list; [clear]
    empties it. *)
Definition orderedSetAdd (r : LinkRef) (p : list LinkRef) : list LinkRef :=
  if decide (r ∈ p) then p else p ++ [r].

(** [Ember.MutableArray] on the raw client-id list: [addObject] pushes only
    when the object is absent, [removeObject] removes every occurrence, and
    the native [splice] behind [replace]. *)
Definition addObject (x : nat) (l : list nat) : list nat :=
  if decide (x ∈ l) then l else l ++ [x].
Definition removeObject (x : nat) (l : list nat) : list nat :=
  filter (fun y => y ≠ x) l.
Definition splice (index removed : nat) (added l : list nat) : list nat :=
  take index l ++ added ++ drop (index + removed) l.

(** The two tests of the assertion in [replaceContent] on the array's
    [type], which may be unset: [get(this, 'type')] as a condition, and
    [get(this, 'type') === c]. *)
Definition isSet (type : option nat) : bool :=
  match type with Some _ => true | None => false end.
Definition typeIs (type : option nat) (c : nat) : bool :=
  bool_decide (type = Some c).

(** [get(record, 'clientId')]: a record is its client id. *)
Definition clientId (record : nat) : nat := record.

(** A link as [DS.OneToManyLink] hands it out the first time: no field is
    set yet. *)
Definition newLink : Link := mkLink VUndefined VUndefined None.

(** JavaScript truthiness of a property name that may be [undefined], and
    the name itself once it is known to be one. *)
Definition truthy (n : option string) : bool :=
  match n with
  | Some s => negb (bool_decide (s = EmptyString))
  | None => false
  end.
Definition propertyName (n : option string) : string := default EmptyString n.

(** ** The methods of DS.ManyArray *)

Section ManyArray.

(** [record.constructor]: the runtime type of a record. *)
Variable constructorOf : nat -> nat.

(** [DS.inverseNameFor(record, parentType, 'belongsTo')]: the name of the
    belongs-to property of [record] that points back at a parent of type
    [parentType], or [undefined]. *)
Variable inverseNameFor : nat -> nat -> option string.

(** [link.sync()], the reconciliation of one link, which
    [DS.OneToManyLink] defines outside this file.  It is a parameter: any
    function that reads the array and the heap and leaves a new heap (the
    links and the properties of the records).  [content] and
    [_linksToSync] are private to the array and are changed only by the
    array's own methods below. *)
Variable sync : LinkRef -> ManyArray -> Heap -> Heap.

(** [this.objectAt(i)]: the record at position [i], [undefined] past the
    end. *)
Definition objectAt (i : nat) : M (option nat) :=
  gets (fun s => content (this s) !! i).

(** Modelled from the spec: [DS.OneToManyLink.forChildAndParent] is not
    part of this file.  It obtains or creates the link of a child,
    memoized by the pair (child, parent); a link that is created has no
    field set.  Asking for the link of [undefined] is an error. *)
Definition forChildAndParent (record : option nat) (parent : nat) : M LinkRef :=
  match record with
  | None => throw TypeError
  | Some child =>
      fun s =>
        match links (heap s) !! (child, parent) with
        | Some _ => Return (child, parent) s
        | None => Return (child, parent) (withLinks (insert (child, parent) newLink) s)
        end
  end.

(** Reading and writing the fields of a link object. *)
Definition getOldParent (link : LinkRef) : M Value :=
  fun s =>
    match links (heap s) !! link with
    | Some l => Return (oldParent l) s
    | None => Throw TypeError s
    end.
Definition setOldParent (link : LinkRef) (v : Value) : M unit :=
  modify (withLinks (alter (fun l => mkLink v (newParent l) (hasManyName l)) link)).
Definition setNewParent (link : LinkRef) (v : Value) : M unit :=
  modify (withLinks (alter (fun l => mkLink (oldParent l) v (hasManyName l)) link)).
Definition setHasManyName (link : LinkRef) (n : string) : M unit :=
  modify (withLinks (alter (fun l => mkLink (oldParent l) (newParent l) (Some n)) link)).

(** [this._linksToSync.add(link)], [.forEach(f)] and [.clear()]; each
    dereferences [this._linksToSync] and fails on [undefined]. *)
Definition linksToSyncAdd (link : LinkRef) : M unit :=
  fun s =>
    match _linksToSync (this s) with
    | Some p => Return tt (withThis (setLinksToSync (Some (orderedSetAdd link p))) s)
    | None => Throw TypeError s
    end.
Definition linksToSyncForEach (f : LinkRef -> M unit) : M unit :=
  fun s =>
    match _linksToSync (this s) with
    | Some p => forEach p f s
    | None => Throw TypeError s
    end.
Definition linksToSyncClear : M unit :=
  fun s =>
    match _linksToSync (this s) with
    | Some _ => Return tt (withThis (setLinksToSync (Some [])) s)
    | None => Throw TypeError s
    end.

(** The call [link.sync()] as the array issues it. *)
Definition linkSync (link : LinkRef) : M unit :=
  fun s =>
    Return tt (mkState (this s) (sync link (this s) (heap s))
                       (trace s ++ [EvSync link (this s) (heap s)])).

(** [this._super.apply(this, arguments)] in the two hooks: the base
    class's notification, which does not touch the state kept here. *)
Definition superArrayContentWillChange (index removed added : nat) : M unit :=
  modify (emit (EvSuperWillChange index removed added)).
Definition superArrayContentDidChange (index removed added : nat) : M unit :=
  modify (emit (EvSuperDidChange index removed added)).

(** [Ember.get(record, key)] and [Ember.set(record, key, v)]. *)
Definition get (record : nat) (key : string) : M Value :=
  gets (fun s => default VUndefined (props (heap s) !! (record, key))).
Definition set (record : nat) (key : string) (v : Value) : M unit :=
  modify (fun s => emit (EvSet record key v) (withProps (insert (record, key) v) s)).

(** [Ember.assert(message, test)] *)
Definition assert (test : bool) : M unit :=
  if test then ret tt else throw AssertionFailed.

Definition arrayContentWillChange (index removed added : nat) : M unit :=
  initted <- gets (fun s => _initted (this s)) ;;
  (if initted then
     owner <- gets (fun s => owner (this s)) ;;
     name <- gets (fun s => name (this s)) ;;
     forEach (seq index removed) (fun i =>
       record <- objectAt i ;;
       link <- forChildAndParent record owner ;;
       setHasManyName link name ;;
       old <- getOldParent link ;;
       (if strictEq old VUndefined then setOldParent link (VRef owner) else ret tt) ;;
       setNewParent link VNull ;;
       linksToSyncAdd link)
   else ret tt) ;;
  superArrayContentWillChange index removed added.

Definition arrayContentDidChange (index removed added : nat) : M unit :=
  initted <- gets (fun s => _initted (this s)) ;;
  (if initted then
     owner <- gets (fun s => owner (this s)) ;;
     name <- gets (fun s => name (this s)) ;;
     forEach (seq index added) (fun i =>
       record <- objectAt i ;;
       link <- forChildAndParent record owner ;;
       setHasManyName link name ;;
       setNewParent link (VRef owner) ;;
       linksToSyncAdd link)
   else ret tt) ;;
  linksToSyncForEach linkSync ;;
  linksToSyncClear ;;
  superArrayContentDidChange index removed added.

(** Modelled from the spec: the base class's [replaceContent], reached
    through [this._super(index, removed, added)], is not part of this
    file.  It brackets the splice of the client-id list with the two
    hooks: pre-change, splice, post-change. *)
Definition superReplaceContent (index removed : nat) (added : list nat) : M unit :=
  arrayContentWillChange index removed (length added) ;;
  modify (withThis (fun a => setContent (splice index removed added (content a)) a)) ;;
  arrayContentDidChange index removed (length added).

Definition replaceContent (index removed : nat) (added : list nat) : M unit :=
  added <- mapM (fun record =>
             type <- gets (fun s => type (this s)) ;;
             assert (negb (isSet type) || typeIs type (constructorOf record)) ;;
             ret (clientId record)) added ;;
  superReplaceContent index removed added.

Definition assignInverse (record : nat) : M Value :=
  ownerType <- gets (fun s => constructorOf (owner (this s))) ;;
  let inverseName := inverseNameFor record ownerType in
  owner <- gets (fun s => owner (this s)) ;;
  if truthy inverseName then
    currentInverse <- get record (propertyName inverseName) ;;
    (if strictNe currentInverse (VRef owner)
     then set record (propertyName inverseName) (VRef owner) else ret tt) ;;
    ret currentInverse
  else ret VUndefined.

Definition removeInverse (record : nat) : M unit :=
  ownerType <- gets (fun s => constructorOf (owner (this s))) ;;
  let inverseName := inverseNameFor record ownerType in
  if truthy inverseName then
    currentInverse <- get record (propertyName inverseName) ;;
    owner <- gets (fun s => owner (this s)) ;;
    if strictEq currentInverse (VRef owner)
    then set record (propertyName inverseName) VNull else ret tt
  else ret tt.

(** The two methods act on the raw client-id list, [get(this, 'content')].
    The list is taken as a plain list; what the base class does when that
    list changes is outside this file and is not modelled. *)
Definition removeFromContent (record : nat) : M unit :=
  let clientId := clientId record in
  modify (withThis (fun a => setContent (removeObject clientId (content a)) a)).

Definition addToContent (record : nat) : M unit :=
  let clientId := clientId record in
  modify (withThis (fun a => setContent (addObject clientId (content a)) a)).

(** [init]: [superInit] stands for [this._super.apply(this, arguments)],
    the base class's initialisation and whatever notifications it
    delivers; the state manager is not kept in this model. *)
Definition init (superInit : M unit) : M unit :=
  superInit ;;
  modify (withThis (setInitted true)) ;;
  modify (withThis (setLinksToSync (Some []))).

End ManyArray.

(** ** Vocabulary for the statements *)

(** The fields a link has after the pre-change hook touched it, from what
    the memo held for it before ([None]: no link yet). *)
Definition depart (ow : nat) (nm : string) (o : option Link) : Link :=
  mkLink (match o with
          | Some l => if strictEq (oldParent l) VUndefined then VRef ow else oldParent l
          | None => VRef ow
          end)
         VNull (Some nm).

(** The same for the post-change hook. *)
Definition arrive (ow : nat) (nm : string) (o : option Link) : Link :=
  mkLink (match o with Some l => oldParent l | None => VUndefined end)
         (VRef ow) (Some nm).

(** One pass of a loop body: the link [r] gets the fields [f] gives it and
    is added to [_linksToSync]. *)
Definition touch (f : option Link -> Link) (r : LinkRef) (s : State) : State :=
  withThis (fun a => setLinksToSync (orderedSetAdd r <$> _linksToSync a) a)
    (withLinks (fun m => <[r := f (m !! r)]> m) s).

Definition stage (f : option Link -> Link) (rs : list LinkRef) (s : State) : State :=
  foldl (fun s r => touch f r s) s rs.

Definition addAll (rs p : list LinkRef) : list LinkRef :=
  foldl (fun p r => orderedSetAdd r p) p rs.

(** The elements at positions [index, index + count) and their links. *)
Definition elementsAt (index count : nat) (a : ManyArray) : list nat :=
  take count (drop index (content a)).
Definition linksOf (a : ManyArray) (children : list nat) : list LinkRef :=
  (fun child => (child, owner a)) <$> children.

(** The run of reconciliations over a pending list: the events it leaves
    and the heap it ends with. *)
Fixpoint syncEvents (sync : LinkRef -> ManyArray -> Heap -> Heap)
    (a : ManyArray) (h : Heap) (p : list LinkRef) : list Event :=
  match p with
  | [] => []
  | r :: p' => EvSync r a h :: syncEvents sync a (sync r a h) p'
  end.
Definition syncAll (sync : LinkRef -> ManyArray -> Heap -> Heap)
    (a : ManyArray) (h : Heap) (p : list LinkRef) : Heap :=
  foldl (fun h r => sync r a h) h p.

(** The links reconciled in a trace, in order, and what each
    reconciliation saw of the array. *)
Definition syncedLinks (t : list Event) : list LinkRef :=
  omap (fun e => match e with EvSync r _ _ => Some r | _ => None end) t.
Definition seenContents (t : list Event) : list (list nat) :=
  omap (fun e => match e with EvSync _ a _ => Some (content a) | _ => None end) t.

(** ** A post and its comments

    The models of the header comment of the source: records below 100 are
    comments (type 1), the others posts (type 2); a comment's inverse of a
    post's has-many is its [post] property.  The reconciliation used to run
    the examples writes the link's [newParent] to that property and drops
    the link from the memo. *)
Definition sampleConstructorOf (record : nat) : nat :=
  if decide (record < 100) then 1 else 2.
Definition sampleInverseNameFor (record parentType : nat) : option string :=
  if decide (parentType = 2) then Some "post"%string else None.
Definition sampleSync (link : LinkRef) (a : ManyArray) (h : Heap) : Heap :=
  match links h !! link with
  | Some l => mkHeap (delete link (links h))
                     (<[(link.1, "post"%string) := newParent l]> (props h))
  | None => h
  end.
Definition sampleArray : ManyArray :=
  mkManyArray 100 "comments" (Some 1) [1; 2; 3] true (Some []).
Definition sampleState : State :=
  mkState sampleArray
          (mkHeap ∅ (<[(2, "post"%string) := VRef 100]> ∅)) [].

(** ** Creating a child within the owner *)

Section CreateRecord.

Variable constructorOf : nat -> nat.
Variable sync : LinkRef -> ManyArray -> Heap -> Heap.

(** The attribute hash that [createRecord] passes on to the store
    untouched. *)
Variable Hash : Type.

(** [store.createRecord(type, hash, transaction)] of the owner's store, a
    parameter: it reads the heap and leaves the new record together with
    the heap that holds it. *)
Variable storeCreateRecord : option nat -> Hash -> Value -> Heap -> nat * Heap.

(** JavaScript truthiness of a value, for [transaction || ...]. *)
Definition truthyValue (v : Value) : bool :=
  match v with VRef _ => true | _ => false end.

(** [Ember.MutableArray]'s [pushObject(obj)] is [insertAt(length, obj)],
    that is [replace(length, 0, [obj])], which an array proxy hands to its
    [replaceContent]. *)
Definition pushObject (record : nat) : M unit :=
  len <- gets (fun s => length (content (this s))) ;;
  replaceContent constructorOf sync len 0 [record].

Definition createRecord (hash : Hash) (transaction : Value) : M nat :=
  owner <- gets (fun s => owner (this s)) ;;
  type <- gets (fun s => type (this s)) ;;
  transaction <- (if truthyValue transaction then ret transaction
                  else get owner "transaction"%string) ;;
  record <- (fun s =>
               let rh := storeCreateRecord type hash transaction (heap s) in
               Return (rh.1) (mkState (this s) (rh.2) (trace s))) ;;
  pushObject record ;;
  ret record.

End CreateRecord.

(** The state in which the reconciliations of one edit start, and the
    queue they walk: the links of the removed elements staged by the
    pre-change hook, the splice, the links of the added elements staged by
    the post-change hook. *)
Definition stagedState (index removed : nat) (added : list nat) (s : State) : State :=
  stage (arrive (owner (this s)) (name (this s))) (linksOf (this s) added)
    (withThis (fun a => setContent (splice index removed added (content a)) a)
       (emit (EvSuperWillChange index removed (length added))
          (stage (depart (owner (this s)) (name (this s)))
             (linksOf (this s) (elementsAt index removed (this s))) s))).
Definition editQueue (index removed : nat) (added : list nat) (a : ManyArray)
    (p : list LinkRef) : list LinkRef :=
  addAll (linksOf a added) (addAll (linksOf a (elementsAt index removed a)) p).

(** A store for the examples: it hands out comment 7 and notes the
    transaction it was given. *)
Definition sampleStore (type : option nat) (hash : unit) (transaction : Value)
    (h : Heap) : nat * Heap :=
  (7, mkHeap (links h) (<[(7, "transaction"%string) := transaction]> (props h))).


(** The sample array while it is being constructed. *)
Definition sampleConstructing : State :=
  mkState (mkManyArray 100 "comments" (Some 1) [1; 2; 3] false None)
          (mkHeap ∅ ∅) [].

(** What an example shows of an outcome: whether the call returned, the
    content and the queue it left, the links reconciled and the content
    each reconciliation saw, and the record properties. *)
Definition observe {A} (o : Outcome A) :
    bool * list nat * option (list LinkRef) * list LinkRef * list (list nat)
    * list (nat * string * Value) :=
  let s := match o with Return _ s => s | Throw _ s => s end in
  (match o with Return _ _ => true | Throw _ _ => false end,
   content (this s), _linksToSync (this s),
   syncedLinks (trace s), seenContents (trace s),
   map_to_list (props (heap s))).

(** ** The loops of the two hooks *)

Lemma touch_this f r s :
  this (touch f r s)
  = setLinksToSync (orderedSetAdd r <$> _linksToSync (this s)) (this s).
Proof. reflexivity. Qed.

(** Two link memos agree once they agree at the link that was touched. *)
Ltac links_pointwise r :=
  apply map_eq; intros k; destruct (decide (k = r)) as [->|];
  [ rewrite ?lookup_alter_eq, ?lookup_insert_eq, ?lookup_alter_eq
  | rewrite ?lookup_alter_ne, ?lookup_insert_ne, ?lookup_alter_ne by done ];
  try done.

Lemma depart_body_touch (i child : nat) (s : State) (p : list LinkRef) :
  _linksToSync (this s) = Some p ->
  content (this s) !! i = Some child ->
  (record <- objectAt i ;;
   link <- forChildAndParent record (owner (this s)) ;;
   setHasManyName link (name (this s)) ;;
   old <- getOldParent link ;;
   (if strictEq old VUndefined then setOldParent link (VRef (owner (this s))) else ret tt) ;;
   setNewParent link VNull ;;
   linksToSyncAdd link) s
  = Return tt (touch (depart (owner (this s)) (name (this s))) (child, owner (this s)) s).
Proof.
  intros Hp Hc. destruct s as [a [lk pr] tr]; simpl in *.
  unfold bind, objectAt, gets; simpl. rewrite Hc; simpl.
  destruct (lk !! (child, owner a)) as [l|] eqn:Hl; simpl.
  - unfold getOldParent, withLinks; simpl. rewrite lookup_alter_eq, Hl; simpl.
    unfold touch, withThis, withLinks, depart; simpl. rewrite Hl, Hp.
    destruct (strictEq (oldParent l) VUndefined) eqn:Hu; simpl;
      unfold linksToSyncAdd; simpl; rewrite Hp; simpl;
      unfold withThis; simpl; do 3 f_equal;
      links_pointwise (child, owner a); rewrite Hl; done.
  - unfold getOldParent, withLinks; simpl.
    rewrite lookup_alter_eq, lookup_insert_eq; simpl.
    unfold linksToSyncAdd; simpl; rewrite Hp; simpl.
    unfold touch, withThis, withLinks, depart; simpl. rewrite Hl, Hp.
    do 3 f_equal. links_pointwise (child, owner a).
Qed.

Lemma arrive_body_touch (i child : nat) (s : State) (p : list LinkRef) :
  _linksToSync (this s) = Some p ->
  content (this s) !! i = Some child ->
  (record <- objectAt i ;;
   link <- forChildAndParent record (owner (this s)) ;;
   setHasManyName link (name (this s)) ;;
   setNewParent link (VRef (owner (this s))) ;;
   linksToSyncAdd link) s
  = Return tt (touch (arrive (owner (this s)) (name (this s))) (child, owner (this s)) s).
Proof.
  intros Hp Hc. destruct s as [a [lk pr] tr]; simpl in *.
  unfold bind, objectAt, gets; simpl. rewrite Hc; simpl.
  unfold touch, withThis, withLinks, arrive; simpl. rewrite Hp.
  destruct (lk !! (child, owner a)) as [l|] eqn:Hl; simpl;
    unfold linksToSyncAdd; simpl; rewrite Hp; simpl;
    unfold withThis; simpl; do 3 f_equal;
    links_pointwise (child, owner a); rewrite ?Hl; done.
Qed.

Lemma elementsAt_S (index n child : nat) (a : ManyArray) :
  content a !! index = Some child ->
  elementsAt index (S n) a = child :: elementsAt (S index) n a.
Proof.
  intros Hc. unfold elementsAt.
  rewrite (drop_S _ _ _ Hc). reflexivity.
Qed.

Lemma forEach_stage (ow : nat) (nm : string) (f : option Link -> Link)
    (body : nat -> M unit) :
  (forall i child s p,
      owner (this s) = ow -> name (this s) = nm ->
      _linksToSync (this s) = Some p ->
      content (this s) !! i = Some child ->
      body i s = Return tt (touch f (child, ow) s)) ->
  forall n index s p,
    owner (this s) = ow -> name (this s) = nm ->
    _linksToSync (this s) = Some p ->
    index + n <= length (content (this s)) ->
    forEach (seq index n) body s
    = Return tt (stage f (linksOf (this s) (elementsAt index n (this s))) s).
Proof.
  intros Hbody. induction n as [|n IH]; intros index s p Ho Hn Hp Hlen.
  - reflexivity.
  - destruct (lookup_lt_is_Some_2 (content (this s)) index) as [child Hc]; [lia|].
    rewrite (elementsAt_S _ _ _ _ Hc). simpl. unfold bind.
    rewrite (Hbody index child s p Ho Hn Hp Hc).
    rewrite (IH (S index) (touch f (child, ow) s) (orderedSetAdd (child, ow) p)).
    + rewrite touch_this. unfold stage, linksOf, elementsAt. simpl.
      rewrite Ho. reflexivity.
    + rewrite touch_this. exact Ho.
    + rewrite touch_this. exact Hn.
    + rewrite touch_this. simpl. rewrite Hp. reflexivity.
    + rewrite touch_this. simpl. lia.
Qed.

(** ** What staging leaves behind *)

Lemma addAll_elem (rs p : list LinkRef) (r : LinkRef) :
  r ∈ addAll rs p <-> r ∈ p \/ r ∈ rs.
Proof.
  revert p. induction rs as [|x rs IH]; intros p; simpl.
  - rewrite elem_of_nil. tauto.
  - unfold addAll in *. simpl. rewrite IH, elem_of_cons. unfold orderedSetAdd.
    destruct (decide (x ∈ p)) as [Hx|Hx].
    + split; [tauto|]. intros [H|[->|H]]; tauto.
    + rewrite elem_of_app, list_elem_of_singleton. tauto.
Qed.

Lemma addAll_NoDup (rs p : list LinkRef) : NoDup p -> NoDup (addAll rs p).
Proof.
  revert p. induction rs as [|x rs IH]; intros p Hp; simpl; [done|].
  apply IH. unfold orderedSetAdd. destruct (decide (x ∈ p)) as [Hx|Hx]; [done|].
  apply NoDup_app. split_and!; [done| |apply NoDup_singleton].
  intros y Hy Hy'. apply list_elem_of_singleton in Hy'. congruence.
Qed.

Lemma addAll_prefix (rs p : list LinkRef) : p `prefix_of` addAll rs p.
Proof.
  revert p. induction rs as [|x rs IH]; intros p; simpl; [done|].
  etrans; [|apply IH]. unfold orderedSetAdd.
  destruct (decide (x ∈ p)); [done|]. by apply prefix_app_r.
Qed.

Lemma stage_this (f : option Link -> Link) (rs : list LinkRef) (s : State) :
  this (stage f rs s)
  = setLinksToSync (addAll rs <$> _linksToSync (this s)) (this s).
Proof.
  revert s. induction rs as [|r rs IH]; intros s.
  - simpl. destruct (this s) as [? ? ? ? ? [?|]]; reflexivity.
  - unfold stage in *. simpl. rewrite IH, touch_this.
    destruct (this s) as [? ? ? ? ? [?|]]; reflexivity.
Qed.

Lemma stage_props (f : option Link -> Link) (rs : list LinkRef) (s : State) :
  props (heap (stage f rs s)) = props (heap s) /\ trace (stage f rs s) = trace s.
Proof.
  revert s. induction rs as [|r rs IH]; intros s; [done|].
  unfold stage in *. simpl. destruct (IH (touch f r s)) as [-> ->]. done.
Qed.

Lemma stage_links (f : option Link -> Link) (rs : list LinkRef) (s : State)
    (r : LinkRef) :
  (forall o, f (Some (f o)) = f o) ->
  links (heap (stage f rs s)) !! r
  = if decide (r ∈ rs) then Some (f (links (heap s) !! r)) else links (heap s) !! r.
Proof.
  intros Hf. revert s. induction rs as [|x rs IH]; intros s.
  - simpl. destruct (decide (r ∈ [])) as [Hin|]; [|done].
    by apply elem_of_nil in Hin.
  - unfold stage in *. simpl. rewrite IH. simpl.
    destruct (decide (r = x)) as [->|Hne].
    + rewrite lookup_insert_eq, Hf.
      destruct (decide (x ∈ x :: rs)) as [_|Hn]; [|by (exfalso; apply Hn; left)].
      by destruct (decide (x ∈ rs)).
    + rewrite lookup_insert_ne by done.
      destruct (decide (r ∈ rs)) as [Hin|Hin], (decide (r ∈ x :: rs)) as [Hin'|Hin'];
        try done.
      * exfalso. apply Hin'. by right.
      * exfalso. apply elem_of_cons in Hin'. tauto.
Qed.

Lemma depart_idem (ow : nat) (nm : string) (o : option Link) :
  depart ow nm (Some (depart ow nm o)) = depart ow nm o.
Proof.
  unfold depart; simpl. f_equal.
  destruct o as [l|]; [|done].
  destruct (strictEq (oldParent l) VUndefined) eqn:Hu; [done|].
  by rewrite Hu.
Qed.

Lemma arrive_idem (ow : nat) (nm : string) (o : option Link) :
  arrive ow nm (Some (arrive ow nm o)) = arrive ow nm o.
Proof. reflexivity. Qed.

(** ** The hooks on an initialised array *)

Lemma forEach_linkSync (sync : LinkRef -> ManyArray -> Heap -> Heap)
    (p : list LinkRef) (s : State) :
  forEach p (linkSync sync) s
  = Return tt (mkState (this s) (syncAll sync (this s) (heap s) p)
                       (trace s ++ syncEvents sync (this s) (heap s) p)).
Proof.
  revert s. induction p as [|r p IH]; intros s; simpl.
  - unfold ret. rewrite app_nil_r. by destruct s.
  - unfold bind, linkSync at 1. rewrite IH. simpl.
    by rewrite <- app_assoc.
Qed.

Lemma arrayContentWillChange_run (index removed added : nat) (s : State)
    (p : list LinkRef) :
  _initted (this s) = true ->
  _linksToSync (this s) = Some p ->
  index + removed <= length (content (this s)) ->
  arrayContentWillChange index removed added s
  = Return tt
      (emit (EvSuperWillChange index removed added)
         (stage (depart (owner (this s)) (name (this s)))
                (linksOf (this s) (elementsAt index removed (this s))) s)).
Proof.
  intros Hi Hp Hlen. unfold arrayContentWillChange.
  unfold bind at 1. unfold gets at 1. rewrite Hi.
  unfold bind at 1. unfold bind at 1. unfold gets at 1.
  unfold bind at 1. unfold gets at 1.
  erewrite (forEach_stage (owner (this s)) (name (this s))
              (depart (owner (this s)) (name (this s)))); eauto.
  intros i child s1 p1 <- <- Hp1 Hc1.
  exact (depart_body_touch i child s1 p1 Hp1 Hc1).
Qed.

Lemma arrayContentDidChange_run (sync : LinkRef -> ManyArray -> Heap -> Heap)
    (index removed added : nat) (s : State) (p : list LinkRef) :
  _initted (this s) = true ->
  _linksToSync (this s) = Some p ->
  index + added <= length (content (this s)) ->
  let rs := linksOf (this s) (elementsAt index added (this s)) in
  let st := stage (arrive (owner (this s)) (name (this s))) rs s in
  arrayContentDidChange sync index removed added s
  = Return tt
      (mkState (setLinksToSync (Some []) (this s))
               (syncAll sync (this st) (heap st) (addAll rs p))
               (trace s ++ syncEvents sync (this st) (heap st) (addAll rs p)
                  ++ [EvSuperDidChange index removed added])).
Proof.
  intros Hi Hp Hlen rs st. unfold arrayContentDidChange.
  unfold bind at 1. unfold gets at 1. rewrite Hi.
  unfold bind at 1. unfold bind at 1. unfold gets at 1.
  unfold bind at 1. unfold gets at 1.
  erewrite (forEach_stage (owner (this s)) (name (this s))
              (arrive (owner (this s)) (name (this s)))); eauto.
  2:{ intros i child s1 p1 <- <- Hp1 Hc1.
      exact (arrive_body_touch i child s1 p1 Hp1 Hc1). }
  fold rs. fold st.
  assert (Hst : this st = setLinksToSync (Some (addAll rs p)) (this s)).
  { unfold st. rewrite stage_this, Hp. reflexivity. }
  unfold bind at 1. unfold linksToSyncForEach. rewrite Hst at 1. simpl.
  rewrite forEach_linkSync.
  unfold bind at 1. unfold linksToSyncClear. simpl. rewrite Hst at 1. simpl.
  unfold superArrayContentDidChange, modify, emit, withThis. simpl.
  rewrite Hst at 1. simpl.
  destruct (stage_props (arrive (owner (this s)) (name (this s))) rs s) as [_ Ht].
  fold st in Ht. rewrite Ht, <- app_assoc. reflexivity.
Qed.

Lemma elem_of_linksOf (a : ManyArray) (children : list nat) (child : nat) :
  (child, owner a) ∈ linksOf a children <-> child ∈ children.
Proof.
  unfold linksOf. rewrite list_elem_of_fmap. split.
  - intros (c & Heq & Hc). by inversion Heq; subst.
  - intros Hc. by exists child.
Qed.

(** C1. On an initialised array, the pre-change hook for the elements at
    positions [index, index + removed) returns normally and, for each of
    those children, leaves a link memoized under (child, owner) whose
    [hasManyName] is the array's name, whose [oldParent] is the owner if it
    was unset (or the link is new) and is otherwise what it was, whose
    [newParent] is [null], and which is in [_linksToSync].  No other link
    is touched or queued, the links queued before stay queued in the same
    order, and nothing else changes apart from the delegation to the base
    class. *)
Theorem arrayContentWillChange_stages_departures
    (index removed added : nat) (s : State) (p : list LinkRef) :
  _initted (this s) = true ->
  _linksToSync (this s) = Some p ->
  index + removed <= length (content (this s)) ->
  exists s' p',
    arrayContentWillChange index removed added s = Return tt s' /\
    _linksToSync (this s') = Some p' /\
    (forall child, child ∈ elementsAt index removed (this s) ->
       exists l,
         links (heap s') !! (child, owner (this s)) = Some l /\
         hasManyName l = Some (name (this s)) /\
         oldParent l
         = match links (heap s) !! (child, owner (this s)) with
           | Some l0 => match oldParent l0 with
                        | VUndefined => VRef (owner (this s))
                        | v => v
                        end
           | None => VRef (owner (this s))
           end /\
         newParent l = VNull /\
         (child, owner (this s)) ∈ p') /\
    (forall r, r ∉ linksOf (this s) (elementsAt index removed (this s)) ->
       links (heap s') !! r = links (heap s) !! r /\ (r ∈ p' <-> r ∈ p)) /\
    p `prefix_of` p' /\
    content (this s') = content (this s) /\
    _initted (this s') = true /\
    props (heap s') = props (heap s) /\
    trace s' = trace s ++ [EvSuperWillChange index removed added].
Proof.
  intros Hi Hp Hlen.
  set (rs := linksOf (this s) (elementsAt index removed (this s))).
  set (f := depart (owner (this s)) (name (this s))).
  exists (emit (EvSuperWillChange index removed added) (stage f rs s)), (addAll rs p).
  split; [by apply (arrayContentWillChange_run _ _ _ _ p)|].
  assert (Hthis : this (stage f rs s) = setLinksToSync (Some (addAll rs p)) (this s)).
  { rewrite stage_this, Hp. reflexivity. }
  destruct (stage_props f rs s) as [Hprops Htrace].
  simpl. rewrite Hthis, Hprops, Htrace. simpl.
  split_and!; try done.
  - intros child Hc. apply (elem_of_linksOf (this s)) in Hc. fold rs in Hc.
    exists (f (links (heap s) !! (child, owner (this s)))).
    rewrite (stage_links f rs s _ (depart_idem _ _)).
    rewrite decide_True by done. split_and!; try done.
    + unfold f, depart. simpl.
      destruct (links (heap s) !! (child, owner (this s))) as [l0|]; [|done].
      by destruct (oldParent l0).
    + apply addAll_elem. by right.
  - intros r Hr. rewrite (stage_links f rs s _ (depart_idem _ _)).
    rewrite decide_False by done. split; [done|].
    rewrite addAll_elem. tauto.
  - apply addAll_prefix.
Qed.

(** ** One structural edit *)

Lemma splice_length (index removed : nat) (added l : list nat) :
  index <= length l ->
  index + length added <= length (splice index removed added l).
Proof.
  intros Hlen. unfold splice. rewrite !length_app, length_take. lia.
Qed.

Lemma splice_elementsAt (index removed : nat) (added l : list nat) (a : ManyArray) :
  index <= length l ->
  elementsAt index (length added) (setContent (splice index removed added l) a) = added.
Proof.
  intros Hlen. unfold elementsAt, splice. simpl.
  rewrite drop_app_length' by (rewrite length_take; lia).
  apply take_app_length.
Qed.

Lemma syncEvents_synced (sync : LinkRef -> ManyArray -> Heap -> Heap)
    (a : ManyArray) (p : list LinkRef) (h : Heap) :
  syncedLinks (syncEvents sync a h p) = p.
Proof.
  revert h. induction p as [|r p IH]; intros h; [done|].
  unfold syncedLinks in *. simpl. by rewrite IH.
Qed.

Lemma syncEvents_seen (sync : LinkRef -> ManyArray -> Heap -> Heap)
    (a : ManyArray) (p : list LinkRef) (h : Heap) :
  Forall (fun e => exists r h', e = EvSync r a h') (syncEvents sync a h p).
Proof.
  revert h. induction p as [|r p IH]; intros h; simpl; [done|].
  constructor; [by eauto|apply IH].
Qed.

Lemma syncedLinks_app (t1 t2 : list Event) :
  syncedLinks (t1 ++ t2) = syncedLinks t1 ++ syncedLinks t2.
Proof. apply omap_app. Qed.

Lemma superReplaceContent_run (sync : LinkRef -> ManyArray -> Heap -> Heap)
    (index removed : nat) (added : list nat) (s : State) (p : list LinkRef) :
  _initted (this s) = true ->
  _linksToSync (this s) = Some p ->
  index + removed <= length (content (this s)) ->
  let gone := linksOf (this s) (elementsAt index removed (this s)) in
  let pre := stage (depart (owner (this s)) (name (this s))) gone s in
  let mid :=
    withThis (fun a => setContent (splice index removed added (content a)) a)
      (emit (EvSuperWillChange index removed (length added)) pre) in
  let come := linksOf (this s) added in
  let st := stage (arrive (owner (this s)) (name (this s))) come mid in
  let q := addAll come (addAll gone p) in
  superReplaceContent sync index removed added s
  = Return tt
      (mkState (setLinksToSync (Some []) (this mid))
               (syncAll sync (this st) (heap st) q)
               (trace mid ++ syncEvents sync (this st) (heap st) q
                  ++ [EvSuperDidChange index removed (length added)])).
Proof.
  intros Hi Hp Hlen gone pre mid come st q. unfold superReplaceContent.
  unfold bind at 1.
  rewrite (arrayContentWillChange_run _ _ _ _ p Hi Hp Hlen). fold gone. fold pre.
  unfold bind at 1. unfold modify at 1. fold mid.
  assert (Hpre : this pre = setLinksToSync (Some (addAll gone p)) (this s)).
  { unfold pre. rewrite stage_this, Hp. reflexivity. }
  assert (Hmid : this mid
                 = setContent (splice index removed added (content (this s)))
                     (setLinksToSync (Some (addAll gone p)) (this s))).
  { unfold mid. simpl. rewrite Hpre. reflexivity. }
  assert (Hel : elementsAt index (length added) (this mid) = added).
  { rewrite Hmid. apply splice_elementsAt. lia. }
  pose proof (arrayContentDidChange_run sync index removed (length added) mid
                (addAll gone p)) as Hrun.
  cbv zeta in Hrun. rewrite Hel in Hrun.
  assert (Ho : owner (this mid) = owner (this s)) by (by rewrite Hmid).
  assert (Hn : name (this mid) = name (this s)) by (by rewrite Hmid).
  rewrite Ho, Hn in Hrun.
  assert (Hc : linksOf (this mid) added = come) by (unfold linksOf, come; by rewrite Ho).
  rewrite Hc in Hrun. fold st in Hrun. fold q in Hrun.
  rewrite Hrun; [| by rewrite Hmid | by rewrite Hmid
                 | rewrite Hmid; simpl; apply splice_length; lia].
  reflexivity.
Qed.

(** ** The type assertion of [replaceContent] *)

Lemma mapM_assert_ok (constructorOf : nat -> nat) (added : list nat) (s : State) :
  (forall record, record ∈ added ->
     negb (isSet (type (this s))) || typeIs (type (this s)) (constructorOf record)
     = true) ->
  mapM (fun record =>
          type <- gets (fun s => type (this s)) ;;
          assert (negb (isSet type) || typeIs type (constructorOf record)) ;;
          ret (clientId record)) added s
  = Return added s.
Proof.
  induction added as [|x added IH]; intros Hok; [done|].
  simpl. unfold bind at 1. unfold bind at 1. unfold gets at 1. unfold bind at 1.
  rewrite (Hok x) by apply list_elem_of_here. simpl.
  unfold bind at 1. rewrite IH; [done|].
  intros r Hr. apply Hok. by apply list_elem_of_further.
Qed.

Lemma mapM_assert_fail (constructorOf : nat -> nat) (added : list nat) (s : State) :
  (exists record, record ∈ added /\
     negb (isSet (type (this s))) || typeIs (type (this s)) (constructorOf record)
     = false) ->
  mapM (fun record =>
          type <- gets (fun s => type (this s)) ;;
          assert (negb (isSet type) || typeIs type (constructorOf record)) ;;
          ret (clientId record)) added s
  = Throw AssertionFailed s.
Proof.
  induction added as [|x added IH]; intros (r & Hr & Hbad).
  - by apply elem_of_nil in Hr.
  - simpl. unfold bind at 1. unfold bind at 1. unfold gets at 1. unfold bind at 1.
    destruct (negb (isSet (type (this s)))
              || typeIs (type (this s)) (constructorOf x)) eqn:Hx; simpl.
    + unfold bind at 1. rewrite IH; [done|].
      apply elem_of_cons in Hr as [->|Hr]; [congruence|]. eauto.
    + done.
Qed.

Lemma replaceContent_ok (constructorOf : nat -> nat)
    (sync : LinkRef -> ManyArray -> Heap -> Heap)
    (index removed : nat) (added : list nat) (s : State) :
  (forall record, record ∈ added ->
     negb (isSet (type (this s))) || typeIs (type (this s)) (constructorOf record) = true) ->
  replaceContent constructorOf sync index removed added s
  = superReplaceContent sync index removed added s.
Proof.
  intros Hok. unfold replaceContent. unfold bind at 1.
  by rewrite mapM_assert_ok.
Qed.

(** C5. With a type configured on the array and an added record whose
    constructor is not that type, [replaceContent] raises the assertion
    failure and leaves the whole state as it found it: [content] and
    [_linksToSync] are unchanged, no link was obtained or written, and the
    trace is the same, so neither hook, nor the splice, nor any
    reconciliation ran. *)
Theorem replaceContent_type_mismatch_aborts (constructorOf : nat -> nat)
    (sync : LinkRef -> ManyArray -> Heap -> Heap)
    (index removed : nat) (added : list nat) (s : State)
    (elementType record : nat) :
  type (this s) = Some elementType ->
  record ∈ added ->
  constructorOf record <> elementType ->
  replaceContent constructorOf sync index removed added s = Throw AssertionFailed s.
Proof.
  intros Ht Hin Hne. unfold replaceContent. unfold bind at 1.
  rewrite mapM_assert_fail; [done|].
  exists record. split; [done|]. rewrite Ht. simpl.
  unfold typeIs. apply bool_decide_eq_false. intros [= ->]. done.
Qed.

(** C2. In a structural edit of an initialised array (pre-change hook,
    splice, post-change hook), the added elements are read at positions
    [index, index + |added|) of the spliced content; when the loop over
    them is done, each has a link under (child, owner) with [hasManyName]
    the array's name and [newParent] the owner, whatever it was before,
    with [oldParent] untouched, and the link is in [_linksToSync].  Only
    then are the queued links reconciled, each once and in queue order, and
    every reconciliation sees the array with the spliced content and the
    complete queue.  The queue ends empty. *)
Theorem arrayContentDidChange_stages_arrivals_then_syncs
    (sync : LinkRef -> ManyArray -> Heap -> Heap)
    (index removed : nat) (added : list nat) (s : State) (p : list LinkRef) :
  _initted (this s) = true ->
  _linksToSync (this s) = Some p ->
  index + removed <= length (content (this s)) ->
  exists pre staged q s',
    arrayContentWillChange index removed (length added) s = Return tt pre /\
    superReplaceContent sync index removed added s = Return tt s' /\
    take (length added) (drop index (splice index removed added (content (this s))))
    = added /\
    content (this staged) = splice index removed added (content (this s)) /\
    _linksToSync (this staged) = Some q /\
    (forall child, child ∈ added ->
       exists l,
         links (heap staged) !! (child, owner (this s)) = Some l /\
         hasManyName l = Some (name (this s)) /\
         newParent l = VRef (owner (this s)) /\
         oldParent l
         = match links (heap pre) !! (child, owner (this s)) with
           | Some l0 => oldParent l0
           | None => VUndefined
           end /\
         (child, owner (this s)) ∈ q) /\
    (forall r, r ∉ linksOf (this s) added ->
       links (heap staged) !! r = links (heap pre) !! r) /\
    (forall r, r ∈ q <->
       r ∈ p \/ r ∈ linksOf (this s) (elementsAt index removed (this s))
       \/ r ∈ linksOf (this s) added) /\
    trace s'
    = trace pre ++ syncEvents sync (this staged) (heap staged) q
        ++ [EvSuperDidChange index removed (length added)] /\
    syncedLinks (syncEvents sync (this staged) (heap staged) q) = q /\
    Forall (fun e => exists r h, e = EvSync r (this staged) h)
           (syncEvents sync (this staged) (heap staged) q) /\
    heap s' = syncAll sync (this staged) (heap staged) q /\
    content (this s') = splice index removed added (content (this s)) /\
    _linksToSync (this s') = Some [].
Proof.
  intros Hi Hp Hlen.
  pose proof (superReplaceContent_run sync index removed added s p Hi Hp Hlen) as Hrun.
  cbv zeta in Hrun.
  set (gone := linksOf (this s) (elementsAt index removed (this s))) in *.
  set (pre := stage (depart (owner (this s)) (name (this s))) gone s) in *.
  set (mid := withThis
                (fun a => setContent (splice index removed added (content a)) a)
                (emit (EvSuperWillChange index removed (length added)) pre)) in *.
  set (come := linksOf (this s) added) in *.
  set (f := arrive (owner (this s)) (name (this s))) in *.
  set (st := stage f come mid) in *.
  set (q := addAll come (addAll gone p)) in *.
  assert (Hpre : this pre = setLinksToSync (Some (addAll gone p)) (this s)).
  { unfold pre. rewrite stage_this, Hp. reflexivity. }
  assert (Hst : this st
                = setLinksToSync (Some q)
                    (setContent (splice index removed added (content (this s)))
                       (this s))).
  { unfold st. rewrite stage_this. unfold mid. simpl. rewrite Hpre. reflexivity. }
  exists (emit (EvSuperWillChange index removed (length added)) pre), st, q.
  eexists. split; [by apply (arrayContentWillChange_run _ _ _ _ p)|].
  split; [exact Hrun|]. simpl.
  split_and!.
  - pose proof (splice_elementsAt index removed added (content (this s)) (this s)) as H.
    unfold elementsAt in H. simpl in H. apply H. lia.
  - by rewrite Hst.
  - by rewrite Hst.
  - intros child Hc. apply (elem_of_linksOf (this s)) in Hc. fold come in Hc.
    exists (f (links (heap mid) !! (child, owner (this s)))).
    unfold st. rewrite (stage_links f come mid _ (arrive_idem _ _)).
    rewrite decide_True by done. split_and!; try done.
    apply addAll_elem. by right.
  - intros r Hr. unfold st. rewrite (stage_links f come mid _ (arrive_idem _ _)).
    by rewrite decide_False.
  - intros r. unfold q. rewrite !addAll_elem. tauto.
  - done.
  - apply syncEvents_synced.
  - apply syncEvents_seen.
  - done.
  - unfold mid. simpl. by rewrite Hpre.
  - done.
Qed.

(** ** One edit, in full *)

Lemma replaceContent_run (constructorOf : nat -> nat)
    (sync : LinkRef -> ManyArray -> Heap -> Heap)
    (index removed : nat) (added : list nat) (s : State) (p : list LinkRef) :
  _initted (this s) = true ->
  _linksToSync (this s) = Some p ->
  index + removed <= length (content (this s)) ->
  (forall record, record ∈ added ->
     negb (isSet (type (this s))) || typeIs (type (this s)) (constructorOf record)
     = true) ->
  let st := stagedState index removed added s in
  let q := editQueue index removed added (this s) p in
  replaceContent constructorOf sync index removed added s
  = Return tt
      (mkState (setLinksToSync (Some [])
                  (setContent (splice index removed added (content (this s))) (this s)))
               (syncAll sync (this st) (heap st) q)
               (trace s ++ [EvSuperWillChange index removed (length added)]
                  ++ syncEvents sync (this st) (heap st) q
                  ++ [EvSuperDidChange index removed (length added)])).
Proof.
  intros Hi Hp Hlen Hok st q.
  rewrite (replaceContent_ok _ _ _ _ _ _ Hok).
  rewrite (superReplaceContent_run sync index removed added s p Hi Hp Hlen).
  fold (stagedState index removed added s). fold st.
  fold (editQueue index removed added (this s) p). fold q.
  destruct (stage_props (depart (owner (this s)) (name (this s)))
              (linksOf (this s) (elementsAt index removed (this s))) s) as [_ Ht].
  simpl. rewrite stage_this, Hp, Ht, <- app_assoc. reflexivity.
Qed.

Lemma stagedState_this (index removed : nat) (added : list nat) (s : State)
    (p : list LinkRef) :
  _linksToSync (this s) = Some p ->
  this (stagedState index removed added s)
  = setLinksToSync (Some (editQueue index removed added (this s) p))
      (setContent (splice index removed added (content (this s))) (this s)).
Proof.
  intros Hp. unfold stagedState, editQueue.
  rewrite stage_this. simpl. rewrite stage_this, Hp. reflexivity.
Qed.

Lemma stagedState_props (index removed : nat) (added : list nat) (s : State) :
  props (heap (stagedState index removed added s)) = props (heap s).
Proof.
  unfold stagedState.
  rewrite (proj1 (stage_props _ _ _)). simpl.
  apply (proj1 (stage_props _ _ _)).
Qed.

Lemma stagedState_links (index removed : nat) (added : list nat) (s : State)
    (r : LinkRef) :
  links (heap (stagedState index removed added s)) !! r
  = let before :=
      if decide (r ∈ linksOf (this s) (elementsAt index removed (this s)))
      then Some (depart (owner (this s)) (name (this s)) (links (heap s) !! r))
      else links (heap s) !! r in
    if decide (r ∈ linksOf (this s) added)
    then Some (arrive (owner (this s)) (name (this s)) before)
    else before.
Proof.
  unfold stagedState.
  rewrite (stage_links _ _ _ _ (arrive_idem _ _)). simpl.
  rewrite (stage_links _ _ _ _ (depart_idem _ _)). reflexivity.
Qed.

(** ** The queue after an edit *)

Lemma arrayContentDidChange_returns_cleared
    (sync : LinkRef -> ManyArray -> Heap -> Heap)
    (index removed added : nat) (s s' : State) :
  arrayContentDidChange sync index removed added s = Return tt s' ->
  _linksToSync (this s') = Some [].
Proof.
  unfold arrayContentDidChange. unfold bind at 1. unfold gets at 1.
  unfold bind at 1.
  match goal with
  | |- match ?m s with _ => _ end = _ -> _ => destruct (m s) as [[] s1|]; [|done]
  end.
  unfold bind at 1. destruct (linksToSyncForEach (linkSync sync) s1) as [[] s2|]; [|done].
  unfold bind at 1. unfold linksToSyncClear.
  destruct (_linksToSync (this s2)); [|done].
  unfold superArrayContentDidChange, modify. intros [= <-]. reflexivity.
Qed.

Lemma replaceContent_returns_cleared (constructorOf : nat -> nat)
    (sync : LinkRef -> ManyArray -> Heap -> Heap)
    (index removed : nat) (added : list nat) (s s' : State) :
  replaceContent constructorOf sync index removed added s = Return tt s' ->
  _linksToSync (this s') = Some [].
Proof.
  unfold replaceContent. unfold bind at 1.
  destruct (mapM _ added s) as [ids s1|]; [|done].
  unfold superReplaceContent. unfold bind at 1.
  destruct (arrayContentWillChange index removed (length ids) s1) as [[] s2|]; [|done].
  unfold bind at 1. unfold modify at 1.
  apply arrayContentDidChange_returns_cleared.
Qed.

(** C3. Whenever [replaceContent], through which every structural mutation
    of the array goes, returns, [_linksToSync] is empty.  On an initialised
    array it does return for every edit within the content whose added
    records pass the type assertion.  The queue that is flushed holds the
    links queued before together with the links of the removed and of the
    added elements; the flush starts from the fully staged state on the
    spliced content, the heap the call leaves is the one obtained by
    applying [sync] to every link of that queue in queue order, and the
    trace records exactly these reconciliations, each once. *)
Theorem replaceContent_leaves_linksToSync_empty (constructorOf : nat -> nat)
    (sync : LinkRef -> ManyArray -> Heap -> Heap)
    (index removed : nat) (added : list nat) (s : State) :
  (forall s',
     replaceContent constructorOf sync index removed added s = Return tt s' ->
     _linksToSync (this s') = Some []) /\
  (forall p,
     _initted (this s) = true ->
     _linksToSync (this s) = Some p ->
     index + removed <= length (content (this s)) ->
     (forall record, record ∈ added ->
        negb (isSet (type (this s))) || typeIs (type (this s)) (constructorOf record)
        = true) ->
     let q := addAll (linksOf (this s) added)
                (addAll (linksOf (this s) (elementsAt index removed (this s))) p) in
     let staged := stagedState index removed added s in
     exists s',
       replaceContent constructorOf sync index removed added s = Return tt s' /\
       _linksToSync (this s') = Some [] /\
       syncedLinks (trace s') = syncedLinks (trace s) ++ q /\
       this staged
       = setLinksToSync (Some q)
           (setContent (splice index removed added (content (this s))) (this s)) /\
       props (heap staged) = props (heap s) /\
       heap s' = syncAll sync (this staged) (heap staged) q /\
       trace s'
       = trace s ++ [EvSuperWillChange index removed (length added)]
           ++ syncEvents sync (this staged) (heap staged) q
           ++ [EvSuperDidChange index removed (length added)]).
Proof.
  split; [intros s'; apply replaceContent_returns_cleared|].
  intros p Hi Hp Hlen Hok q staged.
  pose proof (replaceContent_run constructorOf sync index removed added s p
                Hi Hp Hlen Hok) as Hrun.
  cbv zeta in Hrun. fold staged in Hrun.
  change (editQueue index removed added (this s) p) with q in Hrun.
  eexists. split; [exact Hrun|].
  cbn [this heap trace _linksToSync setLinksToSync].
  split_and!.
  - reflexivity.
  - rewrite !syncedLinks_app, syncEvents_synced.
    unfold syncedLinks at 2 3. simpl. by rewrite app_nil_r.
  - apply (stagedState_this _ _ _ _ p Hp).
  - apply stagedState_props.
  - reflexivity.
  - reflexivity.
Qed.

(** ** A child removed and added again by one edit *)





(** ** Notifications that arrive during construction *)

(** C4. While the array is under construction ([_initted] not yet set and
    [_linksToSync] not yet allocated), the pre-change hook queues nothing
    and only delegates to the base class; the post-change hook, whose flush
    stands outside the [_initted] test, dereferences the unallocated
    [_linksToSync], raises a TypeError and never reaches the delegation.  An
    initialisation whose base part delivers a post-change notification
    therefore fails with that error. *)
Theorem arrayContentDidChange_during_init_raises
    (sync : LinkRef -> ManyArray -> Heap -> Heap)
    (index removed added : nat)
    (ow : nat) (nm : string) (ty : option nat) (c : list nat)
    (h : Heap) (t : list Event) :
  let s := mkState (mkManyArray ow nm ty c false None) h t in
  arrayContentWillChange index removed added s
  = Return tt (emit (EvSuperWillChange index removed added) s) /\
  arrayContentDidChange sync index removed added s = Throw TypeError s /\
  init (arrayContentDidChange sync index removed added) s = Throw TypeError s.
Proof. done. Qed.

Lemma init_quiet (superInit : M unit) (s : State) :
  superInit s = Return tt s ->
  init superInit s
  = Return tt (withThis (setLinksToSync (Some [])) (withThis (setInitted true) s)).
Proof. intros H. unfold init, bind. by rewrite H. Qed.

(** ** The methods for use by inverse relationships *)

Lemma setContent_same (a : ManyArray) : setContent (content a) a = a.
Proof. by destruct a. Qed.

Lemma addObject_present (x : nat) (l : list nat) : x ∈ l -> addObject x l = l.
Proof. intros Hx. unfold addObject. by rewrite decide_True. Qed.

Lemma addObject_NoDup (x : nat) (l : list nat) : NoDup l -> NoDup (addObject x l).
Proof.
  intros Hl. unfold addObject. destruct (decide (x ∈ l)) as [Hx|Hx]; [done|].
  apply NoDup_app. split_and!; [done| |apply NoDup_singleton].
  intros y Hy Hy'. apply list_elem_of_singleton in Hy'. congruence.
Qed.

Lemma addObject_elem (x y : nat) (l : list nat) :
  y ∈ addObject x l <-> y = x \/ y ∈ l.
Proof.
  unfold addObject. destruct (decide (x ∈ l)) as [Hx|Hx].
  - split; [tauto|]. intros [->|H]; done.
  - rewrite elem_of_app, list_elem_of_singleton. tauto.
Qed.

(** C10. [addToContent] of a child whose client id is already in [content]
    changes nothing at all; in general it keeps a duplicate-free [content]
    duplicate-free, and calling it a second time has no further effect. *)
Theorem addToContent_idempotent (record : nat) (s : State) :
  (record ∈ content (this s) -> addToContent record s = Return tt s) /\
  (forall s', addToContent record s = Return tt s' ->
     (NoDup (content (this s)) -> NoDup (content (this s'))) /\
     addToContent record s' = Return tt s').
Proof.
  split.
  - intros Hin. unfold addToContent, modify, withThis.
    rewrite addObject_present by done. rewrite setContent_same. by destruct s.
  - intros s' [= <-]. split.
    + simpl. apply addObject_NoDup.
    + unfold addToContent, modify, withThis. simpl.
      rewrite addObject_present by (apply addObject_elem; by left).
      reflexivity.
Qed.

(** ** The inverse helpers *)

(** C8. When the child's type declares an inverse belongs-to property,
    [assignInverse] returns the value that property held before the call;
    if that value is not the owner it writes the owner there, once, and
    changes nothing else; if it is the owner already, nothing is written
    and the state is unchanged.  When no inverse is declared it returns
    [undefined] and the state is unchanged. *)
Theorem assignInverse_returns_previous (constructorOf : nat -> nat)
    (inverseNameFor : nat -> nat -> option string) (record : nat) (s : State) :
  (forall key,
     inverseNameFor record (constructorOf (owner (this s))) = Some key ->
     key <> EmptyString ->
     let previous := default VUndefined (props (heap s) !! (record, key)) in
     exists s',
       assignInverse constructorOf inverseNameFor record s = Return previous s' /\
       (previous <> VRef (owner (this s)) ->
          this s' = this s /\
          links (heap s') = links (heap s) /\
          props (heap s') = <[(record, key) := VRef (owner (this s))]> (props (heap s)) /\
          trace s' = trace s ++ [EvSet record key (VRef (owner (this s)))]) /\
       (previous = VRef (owner (this s)) -> s' = s)) /\
  (truthy (inverseNameFor record (constructorOf (owner (this s)))) = false ->
   assignInverse constructorOf inverseNameFor record s = Return VUndefined s).
Proof.
  split.
  - intros key Hkey Hne previous.
    unfold assignInverse, bind, gets, get. rewrite Hkey. simpl.
    rewrite bool_decide_eq_false_2 by done. simpl. fold previous.
    unfold strictNe. destruct (decide (previous = VRef (owner (this s)))) as [He|He].
    + rewrite bool_decide_eq_false_2 by tauto. simpl.
      eexists. split; [reflexivity|]. split; [done|]. done.
    + rewrite bool_decide_eq_true_2 by done. simpl.
      eexists. split; [reflexivity|]. split; [done|]. done.
  - intros Hf. unfold assignInverse, bind, gets. by rewrite Hf.
Qed.

(** C9. [removeInverse] always returns normally.  It writes [null] to the
    child's inverse belongs-to property, once and changing nothing else,
    exactly when an inverse is declared and the property currently holds
    the owner; when the property holds anything else, or no inverse is
    declared, the state is unchanged. *)
Theorem removeInverse_clears_only_own_inverse (constructorOf : nat -> nat)
    (inverseNameFor : nat -> nat -> option string) (record : nat) (s : State) :
  (forall key,
     inverseNameFor record (constructorOf (owner (this s))) = Some key ->
     key <> EmptyString ->
     let current := default VUndefined (props (heap s) !! (record, key)) in
     exists s',
       removeInverse constructorOf inverseNameFor record s = Return tt s' /\
       (current = VRef (owner (this s)) ->
          this s' = this s /\
          links (heap s') = links (heap s) /\
          props (heap s') = <[(record, key) := VNull]> (props (heap s)) /\
          trace s' = trace s ++ [EvSet record key VNull]) /\
       (current <> VRef (owner (this s)) -> s' = s)) /\
  (truthy (inverseNameFor record (constructorOf (owner (this s)))) = false ->
   removeInverse constructorOf inverseNameFor record s = Return tt s).
Proof.
  split.
  - intros key Hkey Hne current.
    unfold removeInverse, bind, gets, get. rewrite Hkey. simpl.
    rewrite bool_decide_eq_false_2 by done. simpl. fold current.
    unfold strictEq. destruct (decide (current = VRef (owner (this s)))) as [He|He].
    + rewrite bool_decide_eq_true_2 by done. simpl.
      eexists. split; [reflexivity|]. split; [done|]. done.
    + rewrite bool_decide_eq_false_2 by done. simpl.
      eexists. split; [reflexivity|]. split; [done|]. done.
  - intros Hf. unfold removeInverse, bind, gets. by rewrite Hf.
Qed.

(** ** Edits of the sample array, evaluated *)

(** Comment 2 is replaced by itself and the new comment 7: both links are
    reconciled once, on the final content, and 7 now points at the post. *)
Example replace_one_by_two :
  observe (replaceContent sampleConstructorOf sampleSync 1 1 [2; 7] sampleState)
  = (true, [1; 2; 7; 3], Some [], [(2, 100); (7, 100)],
     [[1; 2; 7; 3]; [1; 2; 7; 3]],
     [(2, "post"%string, VRef 100); (7, "post"%string, VRef 100)]).
Proof. vm_compute. reflexivity. Qed.

(** Comment 2 is removed and not added again: its inverse is cleared. *)
Example remove_one :
  observe (replaceContent sampleConstructorOf sampleSync 1 1 [] sampleState)
  = (true, [1; 3], Some [], [(2, 100)], [[1; 3]],
     [(2, "post"%string, VNull)]).
Proof. vm_compute. reflexivity. Qed.

(** A post among the added records: nothing happens but the assertion. *)
Example add_wrong_type :
  observe (replaceContent sampleConstructorOf sampleSync 1 1 [2; 700] sampleState)
  = (false, [1; 2; 3], Some [], [], [], [(2, "post"%string, VRef 100)]).
Proof. vm_compute. reflexivity. Qed.

(** A base initialisation that is silent, and one that delivers the
    post-change notification for its three initial elements. *)
Example init_silent :
  observe (init (ret tt)
             (mkState (mkManyArray 100 "comments" (Some 1) [1; 2; 3] false None)
                      (mkHeap ∅ ∅) []))
  = (true, [1; 2; 3], Some [], [], [], []).
Proof. vm_compute. reflexivity. Qed.

Example init_notified :
  init (arrayContentDidChange sampleSync 0 0 3)
       (mkState (mkManyArray 100 "comments" (Some 1) [1; 2; 3] false None)
                (mkHeap ∅ ∅) [])
  = Throw TypeError
      (mkState (mkManyArray 100 "comments" (Some 1) [1; 2; 3] false None)
               (mkHeap ∅ ∅) []).
Proof. reflexivity. Qed.

(** ** The statements on the post and its comments *)

Lemma sample_types_ok (added : list nat) :
  Forall (fun record => record < 100) added ->
  forall record, record ∈ added ->
    negb (isSet (type (this sampleState)))
    || typeIs (type (this sampleState)) (sampleConstructorOf record) = true.
Proof.
  intros Hall record Hin. rewrite Forall_forall in Hall.
  specialize (Hall record Hin). simpl.
  unfold typeIs, sampleConstructorOf. rewrite decide_True by done.
  reflexivity.
Defined.

Lemma arrayContentWillChange_stages_departures_witness :
  1 + 2 <= length (content (this sampleState)) /\
  exists s' p',
    arrayContentWillChange 1 2 0 sampleState = Return tt s' /\
    _linksToSync (this s') = Some p' /\
    (3, 100) ∈ p'.
Proof.
  split; [simpl; lia|].
  destruct (arrayContentWillChange_stages_departures 1 2 0 sampleState []
              eq_refl eq_refl ltac:(simpl; lia))
    as (s' & p' & Hrun & Hp' & Hkids & _).
  exists s', p'. split; [exact Hrun|]. split; [exact Hp'|].
  destruct (Hkids 3) as (l & _ & _ & _ & _ & Hin); [|exact Hin].
  simpl. repeat constructor.
Defined.

Lemma arrayContentDidChange_stages_arrivals_then_syncs_witness :
  1 + 1 <= length (content (this sampleState)) /\
  exists s',
    superReplaceContent sampleSync 1 1 [2; 7] sampleState = Return tt s' /\
    content (this s') = [1; 2; 7; 3] /\
    _linksToSync (this s') = Some [].
Proof.
  split; [simpl; lia|].
  destruct (arrayContentDidChange_stages_arrivals_then_syncs sampleSync 1 1 [2; 7]
              sampleState [] eq_refl eq_refl ltac:(simpl; lia))
    as (pre & staged & q & s' & _ & Hrun & _ & _ & _ & _ & _ & _ & _ & _ & _ & _ & Hc & Hq).
  exists s'. split; [exact Hrun|]. split; [exact Hc|exact Hq].
Defined.

Lemma replaceContent_leaves_linksToSync_empty_witness :
  1 + 1 <= length (content (this sampleState)) /\
  exists s',
    replaceContent sampleConstructorOf sampleSync 1 1 [2; 7] sampleState
    = Return tt s' /\
    _linksToSync (this s') = Some [].
Proof.
  split; [simpl; lia|].
  destruct (proj2 (replaceContent_leaves_linksToSync_empty sampleConstructorOf
                     sampleSync 1 1 [2; 7] sampleState)
              [] eq_refl eq_refl ltac:(simpl; lia)
              (sample_types_ok [2; 7] ltac:(repeat constructor)))
    as (s' & Hrun & Hq & _).
  exists s'. split; [exact Hrun|exact Hq].
Defined.

Lemma replaceContent_type_mismatch_aborts_witness :
  type (this sampleState) = Some 1 /\
  sampleConstructorOf 700 <> 1 /\
  replaceContent sampleConstructorOf sampleSync 1 1 [2; 700] sampleState
  = Throw AssertionFailed sampleState.
Proof.
  assert (Hne : sampleConstructorOf 700 <> 1) by (vm_compute; lia).
  split; [reflexivity|]. split; [exact Hne|].
  apply (replaceContent_type_mismatch_aborts sampleConstructorOf sampleSync 1 1
           [2; 700] sampleState 1 700 eq_refl); [repeat constructor|exact Hne].
Defined.


Lemma assignInverse_returns_previous_witness :
  sampleInverseNameFor 3 (sampleConstructorOf (owner (this sampleState)))
  = Some "post"%string /\
  exists s',
    assignInverse sampleConstructorOf sampleInverseNameFor 3 sampleState
    = Return VUndefined s'.
Proof.
  split; [reflexivity|].
  destruct (proj1 (assignInverse_returns_previous sampleConstructorOf
                     sampleInverseNameFor 3 sampleState)
              "post"%string eq_refl ltac:(discriminate))
    as (s' & Hrun & _).
  exists s'. exact Hrun.
Defined.

Lemma removeInverse_clears_only_own_inverse_witness :
  sampleInverseNameFor 2 (sampleConstructorOf (owner (this sampleState)))
  = Some "post"%string /\
  exists s',
    removeInverse sampleConstructorOf sampleInverseNameFor 2 sampleState
    = Return tt s' /\
    trace s' = [EvSet 2 "post"%string VNull].
Proof.
  split; [reflexivity|].
  destruct (proj1 (removeInverse_clears_only_own_inverse sampleConstructorOf
                     sampleInverseNameFor 2 sampleState)
              "post"%string eq_refl ltac:(discriminate))
    as (s' & Hrun & Hclear & _).
  exists s'. split; [exact Hrun|].
  destruct (Hclear eq_refl) as (_ & _ & _ & Ht). exact Ht.
Defined.

Lemma addToContent_idempotent_witness :
  2 ∈ content (this sampleState) /\
  addToContent 2 sampleState = Return tt sampleState.
Proof.
  assert (Hin : 2 ∈ content (this sampleState)) by (simpl; repeat constructor).
  split; [exact Hin|].
  exact (proj1 (addToContent_idempotent 2 sampleState) Hin).
Defined.

Lemma addAll_length (rs p : list LinkRef) :
  length (addAll rs p) <= length p + length rs.
Proof.
  revert p. induction rs as [|x rs IH]; intros p; simpl; [lia|].
  unfold addAll in *. simpl. specialize (IH (orderedSetAdd x p)).
  assert (length (orderedSetAdd x p) <= S (length p)); [|lia].
  unfold orderedSetAdd. destruct (decide (x ∈ p)); [lia|].
  rewrite length_app. simpl. lia.
Qed.

Lemma addAll_absorb (rs p : list LinkRef) :
  (forall r, r ∈ rs -> r ∈ p) -> addAll rs p = p.
Proof.
  induction rs as [|x rs IH]; intros Hin; [done|].
  unfold addAll in *. simpl. unfold orderedSetAdd.
  rewrite decide_True by (apply Hin; left).
  apply IH. intros r Hr. apply Hin. by right.
Qed.

Lemma syncAll_props (sync : LinkRef -> ManyArray -> Heap -> Heap)
    (a : ManyArray) (p : list LinkRef) (h : Heap) :
  (forall r a' h', props (sync r a' h') = props h') ->
  props (syncAll sync a h p) = props h.
Proof.
  intros Hs. revert h. induction p as [|r p IH]; intros h; [done|].
  unfold syncAll in *. simpl. by rewrite IH, Hs.
Qed.

Lemma splice_undo (index : nat) (added l : list nat) :
  index <= length l ->
  splice index (length added) [] (splice index 0 added l) = l.
Proof.
  intros Hlen. unfold splice. simpl.
  rewrite Nat.add_0_r.
  rewrite take_app_length' by (rewrite length_take; lia).
  rewrite (app_assoc (take index l)).
  rewrite drop_app_length' by (rewrite length_app, length_take; lia).
  apply take_drop.
Qed.

Lemma removeObject_absent (x : nat) (l : list nat) : x ∉ l -> removeObject x l = l.
Proof.
  intros Hx. unfold removeObject. induction l as [|y l IH]; [done|].
  apply not_elem_of_cons in Hx as [Hne Hx].
  rewrite filter_cons_True by done. by rewrite IH.
Qed.

Lemma removeObject_gone (x : nat) (l : list nat) : x ∉ removeObject x l.
Proof. unfold removeObject. rewrite list_elem_of_filter. tauto. Qed.

Lemma removeObject_snoc (x : nat) (l : list nat) :
  removeObject x (l ++ [x]) = removeObject x l.
Proof.
  unfold removeObject. rewrite filter_app, filter_cons_False by tauto.
  by rewrite filter_nil, app_nil_r.
Qed.

Lemma heap_ext (h1 h2 : Heap) :
  (forall r, links h1 !! r = links h2 !! r) -> props h1 = props h2 -> h1 = h2.
Proof.
  destruct h1, h2; simpl. intros Hl ->. f_equal. by apply map_eq.
Qed.

(** ** Construction, then edits *)

(** X1. When the base initialisation returns, [init] returns with
    [_initted] set and an allocated, empty [_linksToSync], and with
    everything else as the base initialisation left it; from there every
    edit within the content whose added records pass the type assertion
    returns. *)
Theorem init_makes_array_editable (constructorOf : nat -> nat)
    (sync : LinkRef -> ManyArray -> Heap -> Heap)
    (superInit : M unit) (s s1 : State) :
  superInit s = Return tt s1 ->
  exists s2,
    init superInit s = Return tt s2 /\
    this s2 = setLinksToSync (Some []) (setInitted true (this s1)) /\
    heap s2 = heap s1 /\
    trace s2 = trace s1 /\
    forall index removed added,
      index + removed <= length (content (this s1)) ->
      (forall record, record ∈ added ->
         negb (isSet (type (this s1))) || typeIs (type (this s1)) (constructorOf record)
         = true) ->
      exists s3, replaceContent constructorOf sync index removed added s2 = Return tt s3.
Proof.
  intros Hsuper. eexists. split.
  { unfold init, bind. rewrite Hsuper. reflexivity. }
  simpl. split_and!; try done.
  intros index removed added Hlen Hok.
  eexists. apply (replaceContent_run _ _ _ _ _ _ []); done.
Qed.

(** X2. On an initialised array the pre-change hook can be repeated for
    the same range without further effect on the links and the queue: the
    second call overwrites no [oldParent], queues no link again, and only
    delegates once more. *)
Theorem arrayContentWillChange_twice (index removed added : nat) (s : State)
    (p : list LinkRef) :
  _initted (this s) = true ->
  _linksToSync (this s) = Some p ->
  index + removed <= length (content (this s)) ->
  exists s1 s2,
    arrayContentWillChange index removed added s = Return tt s1 /\
    arrayContentWillChange index removed added s1 = Return tt s2 /\
    this s2 = this s1 /\
    heap s2 = heap s1 /\
    trace s2 = trace s1 ++ [EvSuperWillChange index removed added].
Proof.
  intros Hi Hp Hlen.
  set (rs := linksOf (this s) (elementsAt index removed (this s))).
  set (f := depart (owner (this s)) (name (this s))).
  set (s1 := emit (EvSuperWillChange index removed added) (stage f rs s)).
  assert (Hthis : this s1 = setLinksToSync (Some (addAll rs p)) (this s)).
  { unfold s1. simpl. rewrite stage_this, Hp. reflexivity. }
  exists s1. eexists. split; [by apply (arrayContentWillChange_run _ _ _ _ p)|].
  split.
  { apply (arrayContentWillChange_run _ _ _ _ (addAll rs p)); by rewrite Hthis. }
  assert (Hrs : linksOf (this s1) (elementsAt index removed (this s1)) = rs).
  { unfold linksOf, elementsAt. by rewrite Hthis. }
  assert (Hf : depart (owner (this s1)) (name (this s1)) = f) by (by rewrite Hthis).
  rewrite Hrs, Hf. simpl.
  destruct (stage_props f rs s1) as [Hprops Htrace].
  split_and!.
  - rewrite stage_this, Hthis. simpl. f_equal.
    rewrite addAll_absorb; [done|]. intros r Hr. apply addAll_elem. by right.
  - apply heap_ext; [|exact Hprops]. intros r.
    rewrite (stage_links f rs s1 r (depart_idem _ _)).
    change (heap s1) with (heap (stage f rs s)).
    destruct (decide (r ∈ rs)) as [Hin|Hin]; [|done].
    rewrite (stage_links f rs s r (depart_idem _ _)).
    rewrite decide_True by done. unfold f. by rewrite depart_idem.
  - by rewrite Htrace.
Qed.

(** X3. An edit that removes nothing and adds nothing, at any index, when
    nothing is queued: the array and the heap are unchanged, no link is
    created and none reconciled; the two delegations to the base class are
    all that happens. *)
Theorem replaceContent_nothing (constructorOf : nat -> nat)
    (sync : LinkRef -> ManyArray -> Heap -> Heap) (index : nat) (s : State) :
  _linksToSync (this s) = Some [] ->
  exists s',
    replaceContent constructorOf sync index 0 [] s = Return tt s' /\
    this s' = this s /\
    heap s' = heap s /\
    trace s' = trace s ++ [EvSuperWillChange index 0 0; EvSuperDidChange index 0 0].
Proof.
  intros Hp. destruct s as [a h t]. simpl in Hp.
  assert (Hsp : setContent (splice index 0 [] (content a)) a = a).
  { unfold splice. simpl. rewrite Nat.add_0_r, take_drop. apply setContent_same. }
  assert (Hcl : setLinksToSync (Some []) a = a).
  { destruct a; simpl in *. by subst. }
  eexists. split.
  { unfold replaceContent, superReplaceContent, arrayContentWillChange,
      arrayContentDidChange, bind, gets, modify, withThis,
      linksToSyncForEach, linksToSyncClear; simpl.
    destruct (_initted a) eqn:Hi; simpl; rewrite ?Hi; unfold ret; simpl;
      rewrite Hsp, Hp; simpl; rewrite Hp; reflexivity. }
  simpl. rewrite Hcl, <- app_assoc. done.
Qed.

(** X4. An edit of an initialised array within its content changes, of
    the array object, [content] to the splice and leaves [_linksToSync]
    empty; owner, name, type and [_initted] are what they were, so edits
    can follow one another. *)
Theorem replaceContent_keeps_array (constructorOf : nat -> nat)
    (sync : LinkRef -> ManyArray -> Heap -> Heap)
    (index removed : nat) (added : list nat) (s : State) (p : list LinkRef) :
  _initted (this s) = true ->
  _linksToSync (this s) = Some p ->
  index + removed <= length (content (this s)) ->
  (forall record, record ∈ added ->
     negb (isSet (type (this s))) || typeIs (type (this s)) (constructorOf record)
     = true) ->
  exists s',
    replaceContent constructorOf sync index removed added s = Return tt s' /\
    this s'
    = mkManyArray (owner (this s)) (name (this s)) (type (this s))
        (take index (content (this s)) ++ added
           ++ drop (index + removed) (content (this s)))
        true (Some []).
Proof.
  intros Hi Hp Hlen Hok. eexists.
  split; [by apply (replaceContent_run _ _ _ _ _ _ p)|].
  simpl. unfold setLinksToSync, setContent. simpl. by rewrite Hi.
Qed.

(** X5. Inserting records at an index and then removing as many elements
    at that index gives back the content the array started with, with
    nothing left queued. *)
Theorem replaceContent_insert_then_remove (constructorOf : nat -> nat)
    (sync : LinkRef -> ManyArray -> Heap -> Heap)
    (index : nat) (added : list nat) (s : State) (p : list LinkRef) :
  _initted (this s) = true ->
  _linksToSync (this s) = Some p ->
  index <= length (content (this s)) ->
  (forall record, record ∈ added ->
     negb (isSet (type (this s))) || typeIs (type (this s)) (constructorOf record)
     = true) ->
  exists s1 s2,
    replaceContent constructorOf sync index 0 added s = Return tt s1 /\
    replaceContent constructorOf sync index (length added) [] s1 = Return tt s2 /\
    content (this s2) = content (this s) /\
    _linksToSync (this s2) = Some [].
Proof.
  intros Hi Hp Hlen Hok. eexists. eexists.
  split; [apply (replaceContent_run _ _ _ _ _ _ p); [done..|lia|done]|].
  split.
  - apply (replaceContent_run _ _ _ _ _ _ []); simpl; try done.
    + by apply splice_length.
    + intros r Hr. by apply elem_of_nil in Hr.
  - simpl. split; [|done]. by apply splice_undo.
Qed.

(** X6. [replaceContent] does not look for the record in the content: an
    edit that inserts a record whose client id is already there leaves the
    id in [content] twice. *)
Theorem replaceContent_can_duplicate (constructorOf : nat -> nat)
    (sync : LinkRef -> ManyArray -> Heap -> Heap)
    (index record : nat) (s : State) (p : list LinkRef) :
  _initted (this s) = true ->
  _linksToSync (this s) = Some p ->
  index <= length (content (this s)) ->
  negb (isSet (type (this s))) || typeIs (type (this s)) (constructorOf record) = true ->
  record ∈ content (this s) ->
  exists s',
    replaceContent constructorOf sync index 0 [record] s = Return tt s' /\
    ~ NoDup (content (this s')).
Proof.
  intros Hi Hp Hlen Hok Hin. eexists. split.
  { apply (replaceContent_run _ _ _ _ _ _ p); [done..|lia|].
    intros r Hr. apply list_elem_of_singleton in Hr. by subst. }
  simpl. unfold splice. rewrite Nat.add_0_r. simpl.
  intros Hnd. apply NoDup_app in Hnd as (_ & Hdis & Hnd).
  apply NoDup_cons in Hnd as [Hnot _].
  rewrite <- (take_drop index (content (this s))) in Hin.
  apply elem_of_app in Hin as [Hin|Hin]; [|done].
  apply (Hdis record Hin). left.
Qed.

(** ** What reconciliation is handed *)

(** X7. A child that an edit removes and does not add again: when the
    reconciliations start, on the spliced content, its link is queued with
    [newParent] [null], and with [oldParent] the owner unless an
    [oldParent] was already set on it. *)
Theorem replaceContent_removed_child_link (constructorOf : nat -> nat)
    (sync : LinkRef -> ManyArray -> Heap -> Heap)
    (index removed : nat) (added : list nat) (s : State) (p : list LinkRef)
    (child : nat) :
  _initted (this s) = true ->
  _linksToSync (this s) = Some p ->
  index + removed <= length (content (this s)) ->
  (forall record, record ∈ added ->
     negb (isSet (type (this s))) || typeIs (type (this s)) (constructorOf record)
     = true) ->
  child ∈ elementsAt index removed (this s) ->
  child ∉ added ->
  exists staged q s' l,
    replaceContent constructorOf sync index removed added s = Return tt s' /\
    trace s'
    = trace s ++ [EvSuperWillChange index removed (length added)]
        ++ syncEvents sync (this staged) (heap staged) q
        ++ [EvSuperDidChange index removed (length added)] /\
    content (this staged) = splice index removed added (content (this s)) /\
    _linksToSync (this staged) = Some q /\
    (child, owner (this s)) ∈ q /\
    links (heap staged) !! (child, owner (this s)) = Some l /\
    newParent l = VNull /\
    hasManyName l = Some (name (this s)) /\
    oldParent l
    = match links (heap s) !! (child, owner (this s)) with
      | Some l0 => match oldParent l0 with
                   | VUndefined => VRef (owner (this s))
                   | v => v
                   end
      | None => VRef (owner (this s))
      end.
Proof.
  intros Hi Hp Hlen Hok Hgone Hnot.
  exists (stagedState index removed added s), (editQueue index removed added (this s) p).
  eexists. eexists.
  split; [by apply (replaceContent_run _ _ _ _ _ _ p)|].
  rewrite (stagedState_this _ _ _ _ p Hp). simpl.
  apply (elem_of_linksOf (this s)) in Hgone.
  assert (Hnot' : (child, owner (this s)) ∉ linksOf (this s) added).
  { by rewrite elem_of_linksOf. }
  split_and!; try done.
  - unfold editQueue. rewrite !addAll_elem. tauto.
  - rewrite stagedState_links. simpl.
    rewrite decide_False by done. rewrite decide_True by done. reflexivity.
  - done.
  - done.
  - simpl. destruct (links (heap s) !! (child, owner (this s))) as [l0|]; [|done].
    by destruct (oldParent l0).
Qed.

(** X8. A child that an edit adds and does not remove: when the
    reconciliations start its link is queued with [newParent] the owner,
    and the array has not set an [oldParent] on it: the field is what it
    was, [undefined] on a link this edit created. *)
Theorem replaceContent_added_child_link (constructorOf : nat -> nat)
    (sync : LinkRef -> ManyArray -> Heap -> Heap)
    (index removed : nat) (added : list nat) (s : State) (p : list LinkRef)
    (child : nat) :
  _initted (this s) = true ->
  _linksToSync (this s) = Some p ->
  index + removed <= length (content (this s)) ->
  (forall record, record ∈ added ->
     negb (isSet (type (this s))) || typeIs (type (this s)) (constructorOf record)
     = true) ->
  child ∈ added ->
  child ∉ elementsAt index removed (this s) ->
  exists staged q s' l,
    replaceContent constructorOf sync index removed added s = Return tt s' /\
    trace s'
    = trace s ++ [EvSuperWillChange index removed (length added)]
        ++ syncEvents sync (this staged) (heap staged) q
        ++ [EvSuperDidChange index removed (length added)] /\
    _linksToSync (this staged) = Some q /\
    (child, owner (this s)) ∈ q /\
    links (heap staged) !! (child, owner (this s)) = Some l /\
    newParent l = VRef (owner (this s)) /\
    hasManyName l = Some (name (this s)) /\
    oldParent l
    = match links (heap s) !! (child, owner (this s)) with
      | Some l0 => oldParent l0
      | None => VUndefined
      end.
Proof.
  intros Hi Hp Hlen Hok Hcome Hnot.
  exists (stagedState index removed added s), (editQueue index removed added (this s) p).
  eexists. eexists.
  split; [by apply (replaceContent_run _ _ _ _ _ _ p)|].
  rewrite (stagedState_this _ _ _ _ p Hp). simpl.
  apply (elem_of_linksOf (this s)) in Hcome.
  assert (Hnot' : (child, owner (this s))
                  ∉ linksOf (this s) (elementsAt index removed (this s))).
  { by rewrite elem_of_linksOf. }
  split_and!; try done.
  - unfold editQueue. rewrite !addAll_elem. tauto.
  - rewrite stagedState_links. simpl.
    rewrite decide_True by done. rewrite decide_False by done. reflexivity.
  - done.
  - done.
  - done.
Qed.

(** X9. The array writes no property of any record during an edit: the
    heap handed to the first reconciliation holds the record properties the
    edit started with, and if the reconciliation writes none either, they
    are the same when the edit returns. *)
Theorem replaceContent_writes_no_property (constructorOf : nat -> nat)
    (sync : LinkRef -> ManyArray -> Heap -> Heap)
    (index removed : nat) (added : list nat) (s : State) (p : list LinkRef) :
  _initted (this s) = true ->
  _linksToSync (this s) = Some p ->
  index + removed <= length (content (this s)) ->
  (forall record, record ∈ added ->
     negb (isSet (type (this s))) || typeIs (type (this s)) (constructorOf record)
     = true) ->
  exists staged q s',
    replaceContent constructorOf sync index removed added s = Return tt s' /\
    trace s'
    = trace s ++ [EvSuperWillChange index removed (length added)]
        ++ syncEvents sync (this staged) (heap staged) q
        ++ [EvSuperDidChange index removed (length added)] /\
    props (heap staged) = props (heap s) /\
    ((forall r a h, props (sync r a h) = props h) ->
     props (heap s') = props (heap s)).
Proof.
  intros Hi Hp Hlen Hok.
  exists (stagedState index removed added s), (editQueue index removed added (this s) p).
  eexists.
  split; [by apply (replaceContent_run _ _ _ _ _ _ p)|].
  simpl. split; [done|]. split; [apply stagedState_props|].
  intros Hs. rewrite syncAll_props by done. apply stagedState_props.
Qed.

(** X10. With a duplicate-free queue on entry, one edit reconciles no link
    twice, however often a child occurs among the removed and the added
    elements, and it reconciles at most as many links as were queued plus
    the elements removed and added. *)
Theorem replaceContent_syncs_each_link_once (constructorOf : nat -> nat)
    (sync : LinkRef -> ManyArray -> Heap -> Heap)
    (index removed : nat) (added : list nat) (s : State) (p : list LinkRef) :
  _initted (this s) = true ->
  _linksToSync (this s) = Some p ->
  NoDup p ->
  index + removed <= length (content (this s)) ->
  (forall record, record ∈ added ->
     negb (isSet (type (this s))) || typeIs (type (this s)) (constructorOf record)
     = true) ->
  exists s' events,
    replaceContent constructorOf sync index removed added s = Return tt s' /\
    trace s' = trace s ++ events /\
    NoDup (syncedLinks events) /\
    length (syncedLinks events) <= length p + removed + length added.
Proof.
  intros Hi Hp Hnd Hlen Hok. eexists.
  exists ([EvSuperWillChange index removed (length added)]
          ++ syncEvents sync (this (stagedState index removed added s))
               (heap (stagedState index removed added s))
               (editQueue index removed added (this s) p)
          ++ [EvSuperDidChange index removed (length added)]).
  split; [by apply (replaceContent_run _ _ _ _ _ _ p)|].
  split; [reflexivity|].
  assert (Hq : syncedLinks
                 ([EvSuperWillChange index removed (length added)]
                  ++ syncEvents sync (this (stagedState index removed added s))
                       (heap (stagedState index removed added s))
                       (editQueue index removed added (this s) p)
                  ++ [EvSuperDidChange index removed (length added)])
               = editQueue index removed added (this s) p).
  { rewrite !syncedLinks_app, syncEvents_synced.
    unfold syncedLinks. simpl. by rewrite app_nil_r. }
  rewrite Hq. unfold editQueue. split.
  - by do 2 apply addAll_NoDup.
  - etrans; [apply addAll_length|].
    pose proof (addAll_length (linksOf (this s) (elementsAt index removed (this s))) p).
    unfold linksOf in *. rewrite !length_fmap in *.
    unfold elementsAt in *. rewrite length_take in *. lia.
Qed.

(** ** Creating a child *)

(** X11. [createRecord] on an initialised array asks the store for a
    record with the transaction given or, when none is given, the owner's;
    if the record the store hands out passes the type assertion, that
    record is returned, it is the last element of [content], the elements
    before it are the old content, its link was queued with [newParent] the
    owner and reconciled after whatever was queued before, and nothing is
    left queued. *)
Theorem createRecord_appends_record (constructorOf : nat -> nat)
    (sync : LinkRef -> ManyArray -> Heap -> Heap) (Hash : Type)
    (storeCreateRecord : option nat -> Hash -> Value -> Heap -> nat * Heap)
    (hash : Hash) (transaction : Value) (s : State) (p : list LinkRef) :
  let given :=
    if truthyValue transaction then transaction
    else default VUndefined
           (props (heap s) !! (owner (this s), "transaction"%string)) in
  let made := storeCreateRecord (type (this s)) hash given (heap s) in
  _initted (this s) = true ->
  _linksToSync (this s) = Some p ->
  negb (isSet (type (this s))) || typeIs (type (this s)) (constructorOf (made.1)) = true ->
  exists staged q s' l,
    createRecord constructorOf sync Hash storeCreateRecord hash transaction s
    = Return (made.1) s' /\
    content (this s') = content (this s) ++ [made.1] /\
    _linksToSync (this s') = Some [] /\
    trace s'
    = trace s ++ [EvSuperWillChange (length (content (this s))) 0 1]
        ++ syncEvents sync (this staged) (heap staged) q
        ++ [EvSuperDidChange (length (content (this s))) 0 1] /\
    content (this staged) = content (this s) ++ [made.1] /\
    q = orderedSetAdd (made.1, owner (this s)) p /\
    links (heap staged) !! (made.1, owner (this s)) = Some l /\
    newParent l = VRef (owner (this s)) /\
    hasManyName l = Some (name (this s)) /\
    props (heap staged) = props (made.2).
Proof.
  intros given made Hi Hp Hok.
  set (s1 := mkState (this s) (made.2) (trace s)).
  set (len := length (content (this s))).
  assert (Hrun := replaceContent_run constructorOf sync len 0 [made.1] s1 p Hi Hp).
  cbv zeta in Hrun.
  assert (Hsplice : splice len 0 [made.1] (content (this s))
                    = content (this s) ++ [made.1]).
  { unfold splice, len. rewrite take_ge by done.
    rewrite drop_ge by lia. by rewrite app_nil_r. }
  exists (stagedState len 0 [made.1] s1), (editQueue len 0 [made.1] (this s1) p).
  eexists. eexists. split.
  { unfold createRecord, bind, gets. fold given. 
    assert (Ht : (if truthyValue transaction then ret transaction
                  else get (owner (this s)) "transaction"%string) s
                 = Return given s).
    { unfold given. by destruct (truthyValue transaction). }
    rewrite Ht. fold made. fold s1. unfold pushObject, bind, gets.
    change (length (content (this s1))) with len.
    rewrite Hrun; [reflexivity|simpl; lia|].
    intros r Hr. apply list_elem_of_singleton in Hr. by subst. }
  rewrite (stagedState_this len 0 [made.1] s1 p Hp). simpl.
  split_and!; try done.
  - rewrite lookup_insert_eq. reflexivity.
  - done.
  - done.
Qed.

(** ** The direct pair, composed *)

Lemma state_ext (s : State) (a : ManyArray) :
  a = this s -> mkState a (heap s) (trace s) = s.
Proof. intros ->. by destruct s. Qed.

(** X12. [addToContent] of a child that is not in the content puts its
    client id at the end, and a following [removeFromContent] of the same
    child gives back the content the array started with.  (What else
    happens when the raw list changes is the base class's affair and is
    not stated here.) *)
Theorem addToContent_then_removeFromContent (record : nat) (s : State) :
  record ∉ content (this s) ->
  exists s1 s2,
    addToContent record s = Return tt s1 /\
    content (this s1) = content (this s) ++ [record] /\
    removeFromContent record s1 = Return tt s2 /\
    content (this s2) = content (this s).
Proof.
  intros Hnot.
  exists (mkState (setContent (content (this s) ++ [record]) (this s))
                  (heap s) (trace s)).
  eexists. split.
  { unfold addToContent, modify, withThis, addObject, clientId.
    by rewrite decide_False. }
  split; [done|]. split; [reflexivity|].
  unfold clientId. cbn [this content setContent withThis].
  by rewrite removeObject_snoc, removeObject_absent.
Qed.

(** X13. [removeFromContent] of a child that is not in the content changes
    nothing, and after any [removeFromContent] a second one for the same
    child changes nothing more. *)
Theorem removeFromContent_absent (record : nat) (s : State) :
  (record ∉ content (this s) -> removeFromContent record s = Return tt s) /\
  (forall s1, removeFromContent record s = Return tt s1 ->
     removeFromContent record s1 = Return tt s1).
Proof.
  assert (Hno : forall s0, record ∉ content (this s0) ->
                  removeFromContent record s0 = Return tt s0).
  { intros s0 Hnot. unfold removeFromContent, modify, withThis, clientId.
    rewrite removeObject_absent by done.
    f_equal. apply state_ext. by destruct (this s0). }
  split; [apply Hno|].
  intros s1 [= <-]. apply Hno. simpl. apply removeObject_gone.
Qed.

(** X14. [removeFromContent] followed by [addToContent] of the same child
    leaves the other client ids in their order and the child's id once, at
    the end, wherever and however often it stood before.  (What else
    happens when the raw list changes is the base class's affair and is
    not stated here.) *)
Theorem removeFromContent_then_addToContent (record : nat) (s : State) :
  exists s1 s2,
    removeFromContent record s = Return tt s1 /\
    addToContent record s1 = Return tt s2 /\
    content (this s2)
    = filter (fun y => y <> record) (content (this s)) ++ [record].
Proof.
  eexists. eexists. split; [reflexivity|]. split; [reflexivity|].
  unfold clientId. cbn [this content setContent withThis].
  unfold addObject.
  rewrite decide_False by apply removeObject_gone. reflexivity.
Qed.

(** ** The inverse helpers, composed *)

(** X15. After [assignInverse] on a child with a declared inverse, the
    inverse property holds the owner, and a second [assignInverse] returns
    the owner and writes nothing. *)
Theorem assignInverse_twice (constructorOf : nat -> nat)
    (inverseNameFor : nat -> nat -> option string) (record : nat) (s : State)
    (key : string) :
  inverseNameFor record (constructorOf (owner (this s))) = Some key ->
  key <> EmptyString ->
  exists previous s1,
    assignInverse constructorOf inverseNameFor record s = Return previous s1 /\
    props (heap s1) !! (record, key) = Some (VRef (owner (this s))) /\
    assignInverse constructorOf inverseNameFor record s1
    = Return (VRef (owner (this s))) s1.
Proof.
  intros Hkey Hne.
  set (previous := default VUndefined (props (heap s) !! (record, key))).
  assert (Hrun : forall s0,
            this s0 = this s ->
            assignInverse constructorOf inverseNameFor record s0
            = if strictNe (default VUndefined (props (heap s0) !! (record, key)))
                   (VRef (owner (this s)))
              then Return (default VUndefined (props (heap s0) !! (record, key)))
                     (emit (EvSet record key (VRef (owner (this s))))
                        (withProps (insert (record, key) (VRef (owner (this s)))) s0))
              else Return (default VUndefined (props (heap s0) !! (record, key))) s0).
  { intros s0 H0. unfold assignInverse, bind, gets, get. rewrite H0, Hkey. simpl.
    rewrite bool_decide_eq_false_2 by done. simpl.
    by destruct (strictNe _ _). }
  exists previous. unfold strictNe in Hrun.
  destruct (decide (previous = VRef (owner (this s)))) as [He|He].
  - exists s. rewrite (Hrun s eq_refl). fold previous.
    rewrite bool_decide_eq_false_2 by tauto.
    split; [done|]. rewrite He. split; [|done].
    unfold previous in He.
    destruct (props (heap s) !! (record, key)) as [v|]; simpl in He; by subst.
  - eexists. rewrite (Hrun s eq_refl). fold previous.
    rewrite bool_decide_eq_true_2 by done.
    split; [reflexivity|]. simpl. rewrite lookup_insert_eq. split; [done|].
    rewrite Hrun by done. simpl. rewrite lookup_insert_eq. simpl.
    rewrite bool_decide_eq_false_2 by tauto. done.
Qed.

(** X16. [assignInverse] followed by [removeInverse] on a child with a
    declared inverse leaves the inverse property [null], whatever it held
    before, and a further [removeInverse] changes nothing. *)
Theorem assignInverse_then_removeInverse (constructorOf : nat -> nat)
    (inverseNameFor : nat -> nat -> option string) (record : nat) (s : State)
    (key : string) :
  inverseNameFor record (constructorOf (owner (this s))) = Some key ->
  key <> EmptyString ->
  exists previous s1 s2,
    assignInverse constructorOf inverseNameFor record s = Return previous s1 /\
    removeInverse constructorOf inverseNameFor record s1 = Return tt s2 /\
    props (heap s2) !! (record, key) = Some VNull /\
    removeInverse constructorOf inverseNameFor record s2 = Return tt s2.
Proof.
  intros Hkey Hne.
  assert (Hrem : forall s0,
            this s0 = this s ->
            removeInverse constructorOf inverseNameFor record s0
            = if strictEq (default VUndefined (props (heap s0) !! (record, key)))
                   (VRef (owner (this s)))
              then Return tt (emit (EvSet record key VNull)
                                (withProps (insert (record, key) VNull) s0))
              else Return tt s0).
  { intros s0 H0. unfold removeInverse, bind, gets, get. rewrite H0, Hkey. simpl.
    rewrite bool_decide_eq_false_2 by done. simpl. rewrite H0.
    by destruct (strictEq _ _). }
  unfold strictEq in Hrem.
  set (previous := default VUndefined (props (heap s) !! (record, key))).
  exists previous.
  assert (Has : exists s1,
            assignInverse constructorOf inverseNameFor record s = Return previous s1 /\
            this s1 = this s /\
            props (heap s1) !! (record, key) = Some (VRef (owner (this s)))).
  { unfold assignInverse, bind, gets, get. rewrite Hkey. simpl.
    rewrite bool_decide_eq_false_2 by done. simpl. fold previous.
    unfold strictNe.
    destruct (decide (previous = VRef (owner (this s)))) as [He|He].
    - rewrite bool_decide_eq_false_2 by tauto. simpl.
      exists s. split_and!; try done. unfold previous in He.
      destruct (props (heap s) !! (record, key)) as [v|]; simpl in He; by subst.
    - rewrite bool_decide_eq_true_2 by done. simpl.
      eexists. split; [reflexivity|]. split; [done|]. simpl. apply lookup_insert_eq. }
  destruct Has as (s1 & Hrun & Hthis & Hprop).
  exists s1, (emit (EvSet record key VNull) (withProps (insert (record, key) VNull) s1)).
  split; [exact Hrun|].
  rewrite (Hrem s1 Hthis), Hprop. simpl.
  rewrite bool_decide_eq_true_2 by done.
  split; [reflexivity|]. simpl. rewrite lookup_insert_eq. split; [done|].
  rewrite Hrem by done. simpl. rewrite lookup_insert_eq. reflexivity.
Qed.

(** ** The further statements on the post and its comments *)

Ltac not_among :=
  let H := fresh in
  intros H; repeat (apply elem_of_cons in H as [H|H]; [discriminate H|]);
  by apply elem_of_nil in H.

Lemma init_makes_array_editable_witness :
  exists s2 s3,
    init (ret tt) sampleConstructing = Return tt s2 /\
    replaceContent sampleConstructorOf sampleSync 1 1 [7] s2 = Return tt s3.
Proof.
  destruct (init_makes_array_editable sampleConstructorOf sampleSync (ret tt)
              sampleConstructing sampleConstructing eq_refl)
    as (s2 & Hinit & _ & _ & _ & Hedit).
  destruct (Hedit 1 1 [7] ltac:(simpl; lia)
              (sample_types_ok [7] ltac:(repeat constructor)))
    as (s3 & Hrun).
  exists s2, s3. split; [exact Hinit|exact Hrun].
Defined.

Lemma arrayContentWillChange_twice_witness :
  1 + 2 <= length (content (this sampleState)) /\
  exists s1 s2,
    arrayContentWillChange 1 2 0 sampleState = Return tt s1 /\
    arrayContentWillChange 1 2 0 s1 = Return tt s2 /\
    heap s2 = heap s1.
Proof.
  split; [simpl; lia|].
  destruct (arrayContentWillChange_twice 1 2 0 sampleState [] eq_refl eq_refl
              ltac:(simpl; lia))
    as (s1 & s2 & H1 & H2 & _ & Hh & _).
  exists s1, s2. split; [exact H1|]. split; [exact H2|exact Hh].
Defined.

Lemma replaceContent_nothing_witness :
  _linksToSync (this sampleState) = Some [] /\
  exists s',
    replaceContent sampleConstructorOf sampleSync 5 0 [] sampleState = Return tt s' /\
    this s' = this sampleState.
Proof.
  split; [reflexivity|].
  destruct (replaceContent_nothing sampleConstructorOf sampleSync 5 sampleState eq_refl)
    as (s' & Hrun & Hthis & _).
  exists s'. split; [exact Hrun|exact Hthis].
Defined.

Lemma replaceContent_keeps_array_witness :
  1 + 1 <= length (content (this sampleState)) /\
  exists s',
    replaceContent sampleConstructorOf sampleSync 1 1 [2; 7] sampleState
    = Return tt s' /\
    this s' = mkManyArray 100 "comments" (Some 1) [1; 2; 7; 3] true (Some []).
Proof.
  split; [simpl; lia|].
  destruct (replaceContent_keeps_array sampleConstructorOf sampleSync 1 1 [2; 7]
              sampleState [] eq_refl eq_refl ltac:(simpl; lia)
              (sample_types_ok [2; 7] ltac:(repeat constructor)))
    as (s' & Hrun & Hthis).
  exists s'. split; [exact Hrun|exact Hthis].
Defined.

Lemma replaceContent_insert_then_remove_witness :
  1 <= length (content (this sampleState)) /\
  exists s1 s2,
    replaceContent sampleConstructorOf sampleSync 1 0 [7; 8] sampleState
    = Return tt s1 /\
    replaceContent sampleConstructorOf sampleSync 1 2 [] s1 = Return tt s2 /\
    content (this s2) = [1; 2; 3].
Proof.
  split; [simpl; lia|].
  destruct (replaceContent_insert_then_remove sampleConstructorOf sampleSync 1 [7; 8]
              sampleState [] eq_refl eq_refl ltac:(simpl; lia)
              (sample_types_ok [7; 8] ltac:(repeat constructor)))
    as (s1 & s2 & H1 & H2 & Hc & _).
  exists s1, s2. split; [exact H1|]. split; [exact H2|exact Hc].
Defined.

Lemma replaceContent_can_duplicate_witness :
  2 ∈ content (this sampleState) /\
  exists s',
    replaceContent sampleConstructorOf sampleSync 0 0 [2] sampleState = Return tt s' /\
    ~ NoDup (content (this s')).
Proof.
  assert (Hin : 2 ∈ content (this sampleState)) by (simpl; repeat constructor).
  split; [exact Hin|].
  exact (replaceContent_can_duplicate sampleConstructorOf sampleSync 0 2 sampleState []
           eq_refl eq_refl ltac:(simpl; lia) eq_refl Hin).
Defined.

Lemma replaceContent_removed_child_link_witness :
  2 ∈ elementsAt 1 1 (this sampleState) /\
  (2 ∉ [7]) /\
  exists staged s' l,
    replaceContent sampleConstructorOf sampleSync 1 1 [7] sampleState = Return tt s' /\
    links (heap staged) !! (2, 100) = Some l /\
    newParent l = VNull.
Proof.
  assert (Hin : 2 ∈ elementsAt 1 1 (this sampleState)) by (simpl; repeat constructor).
  assert (Hnot : 2 ∉ [7]) by not_among.
  split; [exact Hin|]. split; [exact Hnot|].
  destruct (replaceContent_removed_child_link sampleConstructorOf sampleSync 1 1 [7]
              sampleState [] 2 eq_refl eq_refl ltac:(simpl; lia)
              (sample_types_ok [7] ltac:(repeat constructor)) Hin Hnot)
    as (staged & q & s' & l & Hrun & _ & _ & _ & _ & Hl & Hnew & _).
  exists staged, s', l. split; [exact Hrun|]. split; [exact Hl|exact Hnew].
Defined.

Lemma replaceContent_added_child_link_witness :
  (7 ∉ elementsAt 1 1 (this sampleState)) /\
  exists staged s' l,
    replaceContent sampleConstructorOf sampleSync 1 1 [7] sampleState = Return tt s' /\
    links (heap staged) !! (7, 100) = Some l /\
    oldParent l = VUndefined.
Proof.
  assert (Hnot : 7 ∉ elementsAt 1 1 (this sampleState)) by (simpl; not_among).
  split; [exact Hnot|].
  destruct (replaceContent_added_child_link sampleConstructorOf sampleSync 1 1 [7]
              sampleState [] 7 eq_refl eq_refl ltac:(simpl; lia)
              (sample_types_ok [7] ltac:(repeat constructor))
              ltac:(repeat constructor) Hnot)
    as (staged & q & s' & l & Hrun & _ & _ & _ & Hl & _ & _ & Hold).
  exists staged, s', l. split; [exact Hrun|]. split; [exact Hl|exact Hold].
Defined.

Lemma replaceContent_writes_no_property_witness :
  1 + 1 <= length (content (this sampleState)) /\
  exists staged s',
    replaceContent sampleConstructorOf sampleSync 1 1 [7] sampleState = Return tt s' /\
    props (heap staged) = props (heap sampleState).
Proof.
  split; [simpl; lia|].
  destruct (replaceContent_writes_no_property sampleConstructorOf sampleSync 1 1 [7]
              sampleState [] eq_refl eq_refl ltac:(simpl; lia)
              (sample_types_ok [7] ltac:(repeat constructor)))
    as (staged & q & s' & Hrun & _ & Hprops & _).
  exists staged, s'. split; [exact Hrun|exact Hprops].
Defined.

Lemma replaceContent_syncs_each_link_once_witness :
  1 + 1 <= length (content (this sampleState)) /\
  exists s' events,
    replaceContent sampleConstructorOf sampleSync 1 1 [2; 2] sampleState
    = Return tt s' /\
    trace s' = trace sampleState ++ events /\
    NoDup (syncedLinks events).
Proof.
  split; [simpl; lia|].
  destruct (replaceContent_syncs_each_link_once sampleConstructorOf sampleSync 1 1
              [2; 2] sampleState [] eq_refl eq_refl (NoDup_nil_2)
              ltac:(simpl; lia) (sample_types_ok [2; 2] ltac:(repeat constructor)))
    as (s' & events & Hrun & Ht & Hnd & _).
  exists s', events. split; [exact Hrun|]. split; [exact Ht|exact Hnd].
Defined.

Lemma createRecord_appends_record_witness :
  exists s',
    createRecord sampleConstructorOf sampleSync unit sampleStore tt VUndefined
      sampleState
    = Return 7 s' /\
    content (this s') = [1; 2; 3; 7].
Proof.
  destruct (createRecord_appends_record sampleConstructorOf sampleSync unit
              sampleStore tt VUndefined sampleState [] eq_refl eq_refl eq_refl)
    as (staged & q & s' & l & Hrun & Hc & _).
  exists s'. split; [exact Hrun|exact Hc].
Defined.

Lemma addToContent_then_removeFromContent_witness :
  (9 ∉ content (this sampleState)) /\
  exists s1 s2,
    addToContent 9 sampleState = Return tt s1 /\
    removeFromContent 9 s1 = Return tt s2 /\
    content (this s2) = [1; 2; 3].
Proof.
  assert (Hnot : 9 ∉ content (this sampleState)) by (simpl; not_among).
  split; [exact Hnot|].
  destruct (addToContent_then_removeFromContent 9 sampleState Hnot)
    as (s1 & s2 & Hadd & _ & Hrem & Hc).
  exists s1, s2. split; [exact Hadd|]. split; [exact Hrem|exact Hc].
Defined.

Lemma removeFromContent_absent_witness :
  (9 ∉ content (this sampleState)) /\
  removeFromContent 9 sampleState = Return tt sampleState.
Proof.
  assert (Hnot : 9 ∉ content (this sampleState)) by (simpl; not_among).
  split; [exact Hnot|].
  exact (proj1 (removeFromContent_absent 9 sampleState) Hnot).
Defined.

Lemma assignInverse_twice_witness :
  sampleInverseNameFor 3 (sampleConstructorOf (owner (this sampleState)))
  = Some "post"%string /\
  exists previous s1,
    assignInverse sampleConstructorOf sampleInverseNameFor 3 sampleState
    = Return previous s1 /\
    assignInverse sampleConstructorOf sampleInverseNameFor 3 s1
    = Return (VRef 100) s1.
Proof.
  split; [reflexivity|].
  destruct (assignInverse_twice sampleConstructorOf sampleInverseNameFor 3 sampleState
              "post"%string eq_refl ltac:(discriminate))
    as (previous & s1 & H1 & _ & H2).
  exists previous, s1. split; [exact H1|exact H2].
Defined.

Lemma assignInverse_then_removeInverse_witness :
  sampleInverseNameFor 3 (sampleConstructorOf (owner (this sampleState)))
  = Some "post"%string /\
  exists previous s1 s2,
    assignInverse sampleConstructorOf sampleInverseNameFor 3 sampleState
    = Return previous s1 /\
    removeInverse sampleConstructorOf sampleInverseNameFor 3 s1 = Return tt s2 /\
    props (heap s2) !! (3, "post"%string) = Some VNull.
Proof.
  split; [reflexivity|].
  destruct (assignInverse_then_removeInverse sampleConstructorOf sampleInverseNameFor
              3 sampleState "post"%string eq_refl ltac:(discriminate))
    as (previous & s1 & s2 & H1 & H2 & Hp & _).
  exists previous, s1, s2. split; [exact H1|]. split; [exact H2|exact Hp].
Defined.
